(** * Candidate-job match scoring: a shallow embedding of the matching models

    The development follows three source files:
    - [models/match.py]     : [JobCandidateMatch] and [MatchHistory];
    - [models/matching.py]  : [CandidateJobMatch] with its unique constraint;
    - [app/models/matching.py] : the [candidate_job_matches] table declaration;
    together with the two properties the scoring code reads,
    [Job.skills_array] ([models/job.py]) and [Candidate.skills_array]
    ([models/candidate.py]). The later parts cover more of these two models:
    the processing status of a candidate and its history
    ([models/candidate.py], [models/candidate_status.py]), the name parts of
    a candidate, and the expiry and owner columns of a job.

    Conventions of the embedding.
    - Python floats are modelled twice. The scoring methods are written over
      the real numbers of the Standard Library, where rounding, infinities
      and NaN are not represented. The module [Binary64] has the similarity
      functions and the score combination over the primitive binary64
      floats; what depends on rounding or on overflow is stated over it.
    - A table is the list of its stored rows; a flush checks the primary
      key, the declared unique constraints and the foreign keys, and raises
      [IntegrityError] when one of them fails. What a flush answers is
      stated for rows whose columns hold values of the declared types.
    - A [datetime] is its number of microseconds since the epoch, between
      [datetime.min] and [datetime.max]; every call of [datetime.utcnow()]
      is an argument of its own.
    - An embedding is a Python list of floats or [None], as the JSONB column
      stores it; [np.array] of such a list is the list itself, [np.dot] of two
      one-dimensional arrays raises [ValueError] when their lengths differ.
    - Python strings are [string]; [str.lower] and [str.strip] act on the ASCII
      range only (bytes above 127 are left alone).
    - An exception is a value of [PyExc]; a call that may raise returns a
      [PyResult]. The state reached when an exception leaves a method is not
      kept.
    - A model instance is a record; a method takes the session and the
      instance and returns the updated instance and the session next to its
      result. [datetime.utcnow().isoformat()] is the argument [now]. *)

From Stdlib Require Import Reals Lra Lia String Ascii List.
From stdpp Require Import gmap strings list.
From Stdlib Require Floats.PrimFloat.

(** ** Exceptions and results *)

Inductive PyExc : Type :=
  | ValueError_shapes_not_aligned (n m : nat)
  | IntegrityError
  | InvalidTransition
  | OverflowError.

Inductive PyResult (A : Type) : Type :=
  | Return (a : A)
  | Raise (e : PyExc).
Arguments Return {A} a.
Arguments Raise {A} e.

Definition bind {A B : Type} (r : PyResult A) (k : A -> PyResult B) : PyResult B :=
  match r with
  | Return a => k a
  | Raise e => Raise e
  end.

Notation "x <- r ;; k" := (bind r (fun x => k))
  (at level 100, r at next level, right associativity).

Definition raises {A : Type} (r : PyResult A) : Prop := exists e, r = Raise e.

(** ** The Python builtins the scoring code calls *)

Module Py.

(** [c.lower()] on one ASCII character. *)
Definition lower_ascii (c : ascii) : ascii :=
  let n := nat_of_ascii c in
  if (65 <=? n)%nat && (n <=? 90)%nat then ascii_of_nat (n + 32) else c.

(** [s.lower()] *)
Fixpoint lower (s : string) : string :=
  match s with
  | EmptyString => EmptyString
  | String c s' => String (lower_ascii c) (lower s')
  end.

(** The ASCII characters [str.isspace] accepts. *)
Definition is_space (c : ascii) : bool :=
  let n := nat_of_ascii c in
  ((9 <=? n)%nat && (n <=? 13)%nat) || ((28 <=? n)%nat && (n <=? 32)%nat).

Fixpoint lstrip (s : string) : string :=
  match s with
  | EmptyString => EmptyString
  | String c s' => if is_space c then lstrip s' else s
  end.

Fixpoint rstrip (s : string) : string :=
  match s with
  | EmptyString => EmptyString
  | String c s' =>
      match rstrip s' with
      | EmptyString => if is_space c then EmptyString else String c EmptyString
      | r => String c r
      end
  end.

(** [s.strip()] *)
Definition strip (s : string) : string := rstrip (lstrip s).

(** [s.split(sep)] for a one-character separator. *)
Fixpoint split (sep : ascii) (s : string) : list string :=
  match s with
  | EmptyString => [EmptyString]
  | String c s' =>
      if Ascii.eqb c sep then EmptyString :: split sep s'
      else match split sep s' with
           | [] => [String c EmptyString]
           | h :: t => String c h :: t
           end
  end.

(** Truth value of a string, of a list and of an optional list. *)
Definition truthy_str (s : string) : bool :=
  match s with EmptyString => false | _ => true end.

Definition truthy_list {A : Type} (l : list A) : bool :=
  match l with [] => false | _ => true end.

Definition truthy_opt_list {A : Type} (o : option (list A)) : bool :=
  match o with None => false | Some l => truthy_list l end.

(** Truth value of a set: [not s] holds exactly for the empty set. *)
Definition truthy_set (s : gset string) : bool := negb (bool_decide (s = ∅)).

(** [max(a, b)] and [min(a, b)] of two floats: the first argument is kept
    unless the second is strictly greater (resp. smaller). *)
Definition max (a b : R) : R := if Rlt_dec a b then b else a.
Definition min (a b : R) : R := if Rlt_dec b a then b else a.

(** [a / b] of two ints. *)
Definition truediv (a b : nat) : R := (INR a / INR b)%R.

End Py.

(** ** The numpy calls on one-dimensional arrays *)

Module Np.

Fixpoint sum_products (a b : list R) : R :=
  match a, b with
  | x :: a', y :: b' => (x * y + sum_products a' b')%R
  | _, _ => 0%R
  end.

(** [np.dot(a, b)]: the shapes must agree. *)
Definition dot (a b : list R) : PyResult R :=
  if decide (length a = length b) then Return (sum_products a b)
  else Raise (ValueError_shapes_not_aligned (length a) (length b)).

(** [np.linalg.norm(a)] *)
Definition norm (a : list R) : R := sqrt (sum_products a a).

End Np.

(** ** JSON values kept in the JSONB columns *)

Inductive JSON : Type :=
  | JNull
  | JNum (r : R)
  | JStr (s : string)
  | JStrList (l : list string).

(** ** [Job] (models/job.py) and [Candidate] (models/candidate.py), as far
    as scoring reads them *)

Module Job.

Record t : Type := mk {
  required_skills : option string;
  embedding : option (list R)
}.

(** The [skills_array] property: the comma-separated [required_skills],
    each item stripped. *)
Definition skills_array (self : t) : list string :=
  match required_skills self with
  | Some s => if Py.truthy_str s then map Py.strip (Py.split "," s) else []
  | None => []
  end.

End Job.

Module Candidate.

Record t : Type := mk {
  parsed_data : option (gmap string JSON);
  embedding : option (list R)
}.

(** The [skills_array] property: the value under ["skills_array"] in
    [parsed_data], and the empty list when [parsed_data] is falsy or lacks
    the key. A JSON null under the key is [None]; the key holds a list of
    strings otherwise. *)
Definition skills_array (self : t) : option (list string) :=
  match parsed_data self with
  | Some d =>
      if bool_decide (d = ∅) then Some []
      else match d !! "skills_array"%string with
           | Some (JStrList l) => Some l
           | Some _ => None
           | None => Some []
           end
  | None => Some []
  end.

End Candidate.

(** ** [MatchHistory] (models/match.py): a table of columns, no methods *)

Module MatchHistory.

Record t : Type := mk {
  id : Z;
  match_id : Z;
  old_score : option R;
  new_score : option R;
  old_status : option string;
  new_status : option string;
  note : option string;
  user_id : option Z;
  timestamp : string
}.

End MatchHistory.

(** The database session as the scoring code sees it: the rows reached by
    [Job.query.get] and [Candidate.query.get], and the [match_history] table. *)
Record Session : Type := mkSession {
  jobs : gmap Z Job.t;
  candidates : gmap Z Candidate.t;
  match_history : list MatchHistory.t
}.

(** [{s.lower() for s in skills}] *)
Definition lower_set (skills : list string) : gset string :=
  list_to_set (map Py.lower skills).

(** ** [JobCandidateMatch] (models/match.py) *)

Module JobCandidateMatch.

Record t : Type := mk {
  id : Z;
  job_id : Z;
  candidate_id : Z;
  score : R;
  match_data : option (gmap string JSON);
  status : string;
  user_id : option Z
}.

(** [_cosine_similarity(vector_a, vector_b)]; an argument that is [None] or
    the empty list is falsy. *)
Definition _cosine_similarity (vector_a vector_b : option (list R)) : PyResult R :=
  match vector_a, vector_b with
  | Some ((_ :: _) as vector_a), Some ((_ :: _) as vector_b) =>
      dot_product <- Np.dot vector_a vector_b ;;
      let norm_a := Np.norm vector_a in
      let norm_b := Np.norm vector_b in
      if Req_dec_T norm_a 0 then Return 0%R
      else if Req_dec_T norm_b 0 then Return 0%R
      else
        let similarity := (dot_product / (norm_a * norm_b))%R in
        Return (Py.max 0 (Py.min 1 similarity))
  | _, _ => Return 0%R
  end.

(** [_calculate_skill_match_score()] *)
Definition _calculate_skill_match_score (db : Session) (self : t) : R :=
  match jobs db !! job_id self, candidates db !! candidate_id self with
  | Some job, Some candidate =>
      let job_skills := lower_set (Job.skills_array job) in
      let candidate_skills :=
        lower_set (default [] (Candidate.skills_array candidate)) in
      if negb (Py.truthy_set job_skills) || negb (Py.truthy_set candidate_skills)
      then 0%R
      else
        let intersection := size (job_skills ∩ candidate_skills) in
        let union := size (job_skills ∪ candidate_skills) in
        if (union =? 0)%nat then 0%R else Py.truediv intersection union
  | _, _ => 0%R
  end.

(** The embedding used for the job: the argument, or the stored one when the
    argument is falsy. *)
Definition resolve_job_embedding (db : Session) (self : t)
    (job_embedding : option (list R)) : option (list R) :=
  if Py.truthy_opt_list job_embedding then job_embedding
  else match jobs db !! job_id self with
       | Some job => Job.embedding job
       | None => None
       end.

Definition resolve_candidate_embedding (db : Session) (self : t)
    (candidate_embedding : option (list R)) : option (list R) :=
  if Py.truthy_opt_list candidate_embedding then candidate_embedding
  else match candidates db !! candidate_id self with
       | Some candidate => Candidate.embedding candidate
       | None => None
       end.

(** [calculate_score(job_embedding=None, candidate_embedding=None)], called
    at time [now]. The result carries the returned score, the instance and
    the session after the call. *)
Definition calculate_score (db : Session) (now : string) (self : t)
    (job_embedding candidate_embedding : option (list R))
    : PyResult (R * t * Session) :=
  let job_embedding := resolve_job_embedding db self job_embedding in
  let candidate_embedding :=
    resolve_candidate_embedding db self candidate_embedding in
  if negb (Py.truthy_opt_list job_embedding)
     || negb (Py.truthy_opt_list candidate_embedding)
  then Return (_calculate_skill_match_score db self, self, db)
  else
    embedding_similarity <- _cosine_similarity job_embedding candidate_embedding ;;
    let embedding_score := (embedding_similarity * 0.6)%R in
    let skill_score := (_calculate_skill_match_score db self * 0.4)%R in
    let total_score := (embedding_score + skill_score)%R in
    let data :=
      <["last_calculated_at"%string := JStr now]>
        (<["total_score"%string := JNum total_score]>
          (<["skill_match_score"%string := JNum skill_score]>
            (<["embedding_similarity"%string := JNum embedding_similarity]>
              (default ∅ (match_data self))))) in
    Return (total_score,
            {| id := id self; job_id := job_id self;
               candidate_id := candidate_id self;
               score := total_score; match_data := Some data;
               status := status self; user_id := user_id self |},
            db).

End JobCandidateMatch.

(** ** [CandidateJobMatch] (models/matching.py) *)

Module CandidateJobMatch.

Record t : Type := mk {
  id : Z;
  candidate_id : Z;
  job_id : Z;
  match_score : R;
  skills_match_score : R;
  embedding_match_score : R;
  match_data : option (gmap string JSON);
  user_id : option Z
}.

(** [_calculate_skills_match(candidate, job)] *)
Definition _calculate_skills_match (candidate : Candidate.t) (job : Job.t) : R :=
  let candidate_skills :=
    match Candidate.skills_array candidate with
    | Some ((_ :: _) as skills) => lower_set skills
    | _ => ∅
    end in
  let job_skills :=
    if Py.truthy_list (Job.skills_array job)
    then lower_set (Job.skills_array job) else ∅ in
  if negb (Py.truthy_set candidate_skills) || negb (Py.truthy_set job_skills)
  then 0%R
  else
    let intersection := size (candidate_skills ∩ job_skills) in
    let union := size (candidate_skills ∪ job_skills) in
    if (0 <? union)%nat then Py.truediv intersection union else 0%R.

(** [_calculate_embedding_match(candidate_embedding, job_embedding)] on two
    lists. *)
Definition _calculate_embedding_match
    (candidate_embedding job_embedding : list R) : PyResult R :=
  dot_product <- Np.dot candidate_embedding job_embedding ;;
  let norm_candidate := Np.norm candidate_embedding in
  let norm_job := Np.norm job_embedding in
  if Req_dec_T norm_candidate 0 then Return 0%R
  else if Req_dec_T norm_job 0 then Return 0%R
  else
    let similarity := (dot_product / (norm_candidate * norm_job))%R in
    Return (Py.max 0 (Py.min 1 similarity)).

(** [x or Model.query.get(key)] for an optional model instance. *)
Definition or_query {A : Type} (x : option A) (rows : gmap Z A) (key : Z)
    : option A :=
  match x with
  | Some _ => x
  | None => rows !! key
  end.

(** [calculate_match_score(candidate=None, job=None)], called at time
    [now]. The result carries the returned score, the instance and the
    session after the call. *)
Definition calculate_match_score (db : Session) (now : string) (self : t)
    (candidate : option Candidate.t) (job : option Job.t)
    : PyResult (R * t * Session) :=
  match or_query candidate (candidates db) (candidate_id self),
        or_query job (jobs db) (job_id self) with
  | Some candidate, Some job =>
      let skills := _calculate_skills_match candidate job in
      match Candidate.embedding candidate, Job.embedding job with
      | Some ((_ :: _) as candidate_embedding), Some ((_ :: _) as job_embedding) =>
          embedding <- _calculate_embedding_match candidate_embedding job_embedding ;;
          let skills_score := skills in
          let embedding_score := embedding in
          let total := (skills_score * 0.4 + embedding_score * 0.6)%R in
          let data : gmap string JSON :=
            <["calculation_timestamp"%string := JStr now]>
              (<["total_score"%string := JNum total]>
                (<["embedding_match_score"%string := JNum embedding_score]>
                  (<["skills_match_score"%string := JNum skills_score]> ∅))) in
          Return (total,
                  {| id := id self; candidate_id := candidate_id self;
                     job_id := job_id self; match_score := total;
                     skills_match_score := skills;
                     embedding_match_score := embedding;
                     match_data := Some data; user_id := user_id self |},
                  db)
      | _, _ =>
          Return (skills,
                  {| id := id self; candidate_id := candidate_id self;
                     job_id := job_id self; match_score := skills;
                     skills_match_score := skills;
                     embedding_match_score := 0%R;
                     match_data := match_data self; user_id := user_id self |},
                  db)
      end
  | _, _ => Return (0%R, self, db)
  end.

End CandidateJobMatch.

(** ** [CandidateJobMatch] (app/models/matching.py): columns only *)

Module AppCandidateJobMatch.

Record t : Type := mk {
  id : Z;
  candidate_id : Z;
  job_id : Z;
  match_score : R;
  embedding_score : option R;
  skill_score : option R;
  experience_score : option R;
  model_version : option string;
  status : string;
  reviewed_by : option Z
}.

End AppCandidateJobMatch.

(** ** Tables and their constraints

    A table is the list of its rows in insertion order, each row with the
    [id] it is stored under (a row added without [id] is stored with the next
    value of the sequence, which no stored row has). A table declaration has
    the primary key, the [db.UniqueConstraint("candidate_id", "job_id")]
    pairs of [__table_args__] (both columns are declared [nullable=False]),
    one test per [db.ForeignKey] column, which holds when the column is null
    or the referenced row exists, and one test per typed column. Flushing a
    row that repeats a stored primary key or a stored constrained pair, or
    that references a missing row, raises [IntegrityError] and stores
    nothing. The referenced tables are fixed while the table is used.

    The column types are no condition of [insert]: what happens to a value
    outside them depends on the database (PostgreSQL refuses it before any
    constraint is checked, SQLite stores it). What [insert] answers is
    therefore stated for rows within the column types, [storable]; the
    tests are at least as strict as the database (a [db.String(20)] is
    tested on its bytes, which are at least as many as its characters). *)

Module Table.

(** The ids stored in the tables the foreign keys point to. *)
Record Parents : Type := mkParents {
  job_ids : gset Z;
  candidate_ids : gset Z;
  user_ids : gset Z;
  recruiter_ids : gset Z
}.

Record Declaration (Row : Type) : Type := mkDeclaration {
  primary_key : Row -> Z;
  table_args : list (Row -> Z * Z);
  foreign_keys : list (Row -> bool);
  column_types : list (Row -> bool)
}.
Arguments primary_key {Row} _ _.
Arguments table_args {Row} _.
Arguments foreign_keys {Row} _.
Arguments column_types {Row} _.

(** [db.Integer]: a 32-bit signed integer. *)
Definition integer (n : Z) : bool :=
  (-2147483648 <=? n)%Z && (n <=? 2147483647)%Z.
Definition integer_or_null (n : option Z) : bool :=
  match n with
  | Some k => integer k
  | None => true
  end.

(** Text holds no NUL character. *)
Fixpoint text (s : string) : bool :=
  match s with
  | EmptyString => true
  | String c s' => negb (Ascii.eqb c "000"%char) && text s'
  end.


(** [JSONB] *)
Definition json (v : JSON) : bool :=
  match v with
  | JNull | JNum _ => true
  | JStr s => text s
  | JStrList l => forallb text l
  end.
Definition jsonb_or_null (data : option (gmap string JSON)) : bool :=
  match data with
  | Some m => forallb (fun kv => text (fst kv) && json (snd kv)) (map_to_list m)
  | None => true
  end.

(** A [nullable=False] and a nullable foreign key column. *)
Definition references (ids : gset Z) (key : Z) : bool := bool_decide (key ∈ ids).
Definition references_or_null (ids : gset Z) (key : option Z) : bool :=
  match key with
  | Some k => bool_decide (k ∈ ids)
  | None => true
  end.

Section Rows.
Context {Row : Type}.
Variable table : Declaration Row.

Definition same_key (key : Row -> Z * Z) (r r' : Row) : bool :=
  bool_decide (key r = key r').

Definition same_id (r r' : Row) : bool :=
  bool_decide (primary_key table r = primary_key table r').

Definition conflicts (rows : list Row) (r : Row) : bool :=
  existsb (same_id r) rows
  || existsb (fun key => existsb (same_key key r) rows) (table_args table).

Definition references_hold (r : Row) : bool :=
  forallb (fun foreign_key => foreign_key r) (foreign_keys table).


(** [db.session.add(r); db.session.commit()] *)
Definition insert (rows : list Row) (r : Row) : PyResult (list Row) :=
  if conflicts rows r || negb (references_hold r) then Raise IntegrityError
  else Return (rows ++ [r]).

(** Assigning new column values to the row stored at position [i], then
    committing. *)
Definition update (rows : list Row) (i : nat) (r : Row) : PyResult (list Row) :=
  if conflicts (take i rows ++ drop (S i) rows) r || negb (references_hold r)
  then Raise IntegrityError
  else Return (<[i := r]> rows).

(** [db.session.delete(row); db.session.commit()] for the row at
    position [i]. *)
Definition delete (rows : list Row) (i : nat) : list Row :=
  take i rows ++ drop (S i) rows.

(** The states a table goes through, starting empty. *)
Inductive reachable : list Row -> Prop :=
  | reachable_empty : reachable []
  | reachable_insert rows r rows' :
      reachable rows -> insert rows r = Return rows' -> reachable rows'
  | reachable_update rows i r rows' :
      reachable rows -> update rows i r = Return rows' -> reachable rows'
  | reachable_delete rows i :
      reachable rows -> reachable (delete rows i).

(** One row per primary key and per value of each constrained column pair,
    and no row with a dangling reference. *)
Definition unique_rows (rows : list Row) : Prop :=
  NoDup (primary_key table <$> rows)
  /\ Forall (fun key => NoDup (key <$> rows)) (table_args table)
  /\ Forall (fun r => references_hold r = true) rows.

End Rows.


(** [candidate_job_matches] (models/matching.py): primary key [id], foreign
    keys [candidate_id], [job_id] and the nullable [user_id], and the unique
    constraint [uq_candidate_job]. *)
Definition candidate_job_matches (parents : Parents)
    : Declaration CandidateJobMatch.t :=
  {| primary_key := CandidateJobMatch.id;
     table_args :=
       [fun r => (CandidateJobMatch.candidate_id r, CandidateJobMatch.job_id r)];
     foreign_keys :=
       [fun r => references (candidate_ids parents)
                   (CandidateJobMatch.candidate_id r);
        fun r => references (job_ids parents) (CandidateJobMatch.job_id r);
        fun r => references_or_null (user_ids parents)
                   (CandidateJobMatch.user_id r)];
     column_types :=
       [fun r => integer (CandidateJobMatch.id r);
        fun r => integer (CandidateJobMatch.candidate_id r);
        fun r => integer (CandidateJobMatch.job_id r);
        fun r => jsonb_or_null (CandidateJobMatch.match_data r);
        fun r => integer_or_null (CandidateJobMatch.user_id r)] |}.


End Table.

(** ** Status workflow *)

Module StatusWorkflow.

(** The values the [status] column takes (app/models/matching.py: new,
    reviewed, contacted, rejected); ["new"] is the column default. *)
Inductive Status : Type := new | reviewed | contacted | rejected.

#[export] Instance Status_eq_dec : EqDecision Status.
Proof. solve_decision. Defined.

(** Modelled from the spec: the part of a MatchHistoryEntry (section 3) that
    a status transition writes. *)
Record HistoryEntry : Type := mkEntry {
  previousStatus : Status;
  newStatus : Status;
  actorId : string;
  note : option string
}.

(** Modelled from the spec: the part of a MatchRecord (section 3) that a
    status transition reads and writes, with the history entries it owns. *)
Record MatchRecord : Type := mkRecord {
  status : Status;
  history : list HistoryEntry
}.

(** Modelled from the spec: the transition table of section 4.5. The source
    has no transition method for match records; only the [status] column is
    declared. *)
Definition allowed (from to : Status) : bool :=
  match from, to with
  | new, reviewed => true
  | reviewed, contacted => true
  | new, rejected | reviewed, rejected | contacted, rejected => true
  | _, _ => false
  end.

(** Modelled from the spec: [transition(matchRecordId, newStatus, actorId,
    note?)] of section 4.5, absent from the source. A transition to the
    current status succeeds and writes nothing; an allowed one updates the
    status and appends one history entry; any other fails. *)
Definition transition (m : MatchRecord) (to : Status) (actor : string)
    (note : option string) : PyResult MatchRecord :=
  if decide (status m = to) then Return m
  else if allowed (status m) to then
    Return {| status := to;
              history := history m ++ [mkEntry (status m) to actor note] |}
  else Raise InvalidTransition.

End StatusWorkflow.

(** ** The skill overlap in the words of the specification *)

(** Jaccard similarity of two sets, [0] when either is empty. *)
Definition jaccard (A B : gset string) : R :=
  if decide (A = ∅ \/ B = ∅) then 0%R
  else (INR (size (A ∩ B)) / INR (size (A ∪ B)))%R.

(** Skill names normalised by case-folding and trimming. *)
Definition normalize_fold_trim (s : string) : string := Py.lower (Py.strip s).

Definition skill_overlap_fold_trim (A B : list string) : R :=
  jaccard (list_to_set (map normalize_fold_trim A))
          (list_to_set (map normalize_fold_trim B)).

(** Skill names normalised by lower-casing only. *)
Definition skill_overlap_lower (A B : list string) : R :=
  jaccard (lower_set A) (lower_set B).

(** ** The similarity in the words of the specification *)

(** The cosine of the angle between two vectors. *)
Definition cosine (a b : list R) : R :=
  (Np.sum_products a b / (Np.norm a * Np.norm b))%R.

(** The payload [calculate_score] merges into [match_data]. *)
Definition score_payload (now : string) (similarity skill_score total : R)
    (previous : option (gmap string JSON)) : gmap string JSON :=
  <["last_calculated_at"%string := JStr now]>
    (<["total_score"%string := JNum total]>
      (<["skill_match_score"%string := JNum skill_score]>
        (<["embedding_similarity"%string := JNum similarity]>
          (default ∅ previous)))).

(** The payload [calculate_match_score] stores in [match_data]. *)
Definition match_score_payload (now : string) (skills embedding total : R)
    : gmap string JSON :=
  <["calculation_timestamp"%string := JStr now]>
    (<["total_score"%string := JNum total]>
      (<["embedding_match_score"%string := JNum embedding]>
        (<["skills_match_score"%string := JNum skills]> ∅))).

(** ** The similarity and the combination on binary64

    The same lines of the source with IEEE 754 binary64 numbers, the floats
    of Python and numpy, so that the rounding, the infinities and the NaN the
    real numbers leave out can be evaluated. [np.dot] leaves the order of the
    additions to BLAS; the products are added here from left to right, and
    the vectors evaluated with these definitions have two entries, for which
    every order gives the same double. *)

Module Binary64.
Import PrimFloat.
#[local] Set Warnings "-inexact-float".

(** [max(a, b)] and [min(a, b)]: the first argument is kept unless the second
    compares strictly greater (resp. smaller); a NaN compares false. *)
Definition max (a b : float) : float := if ltb a b then b else a.
Definition min (a b : float) : float := if ltb b a then b else a.

Definition sum_products (a b : list float) : float :=
  fold_left (fun acc xy => (acc + fst xy * snd xy)%float) (combine a b) 0%float.

(** [np.dot(a, b)] *)
Definition dot (a b : list float) : PyResult float :=
  if decide (length a = length b) then Return (sum_products a b)
  else Raise (ValueError_shapes_not_aligned (length a) (length b)).

(** [np.linalg.norm(a)]: the square root of [a.dot(a)]. *)
Definition norm (a : list float) : float := sqrt (sum_products a a).

(** [CandidateJobMatch._calculate_embedding_match] *)
Definition _calculate_embedding_match
    (candidate_embedding job_embedding : list float) : PyResult float :=
  dot_product <- dot candidate_embedding job_embedding ;;
  let norm_candidate := norm candidate_embedding in
  let norm_job := norm job_embedding in
  if eqb norm_candidate 0 then Return 0%float
  else if eqb norm_job 0 then Return 0%float
  else
    let similarity := (dot_product / (norm_candidate * norm_job))%float in
    Return (max 0 (min 1 similarity)).

(** [JobCandidateMatch._cosine_similarity] *)
Definition _cosine_similarity (vector_a vector_b : option (list float))
    : PyResult float :=
  match vector_a, vector_b with
  | Some ((_ :: _) as vector_a), Some ((_ :: _) as vector_b) =>
      dot_product <- dot vector_a vector_b ;;
      let norm_a := norm vector_a in
      let norm_b := norm vector_b in
      if eqb norm_a 0 then Return 0%float
      else if eqb norm_b 0 then Return 0%float
      else
        let similarity := (dot_product / (norm_a * norm_b))%float in
        Return (max 0 (min 1 similarity))
  | _, _ => Return 0%float
  end.

(** The combination of [calculate_score]:
    [embedding_similarity * 0.6 + skill * 0.4]. *)
Definition total_score (embedding_similarity skill : float) : float :=
  let embedding_score := (embedding_similarity * 0.6)%float in
  let skill_score := (skill * 0.4)%float in
  (embedding_score + skill_score)%float.

(** The combination of [calculate_match_score]:
    [(skills_score * 0.4) + (embedding_score * 0.6)]. *)
Definition match_score (skills_score embedding_score : float) : float :=
  ((skills_score * 0.4) + (embedding_score * 0.6))%float.

(** The floats the statements below name. *)
Definition six_tenths : float := 0.6%float.
Definition diagonal : list float := [1; 1]%float.
Definition unit_x : list float := [1; 0]%float.
Definition huge_x : list float := [1e200; 0]%float.
Definition unit_minus_x : list float := [-1; 0]%float.
Definition huge_minus_x : list float := [-1e200; 0]%float.

End Binary64.

(** ** Sample rows *)

Module Sample.

(** A job asking for python and go, a candidate offering python and sql,
    neither with an embedding (rows 1); a job asking for go and a candidate
    offering python, both with the embedding [(1, 0)] (rows 2). *)
Definition job1 : Job.t := Job.mk (Some "python,go"%string) None.
Definition candidate1 : Candidate.t :=
  Candidate.mk (Some {[ "skills_array"%string := JStrList ["python"; "sql"]%string ]})
               None.
Definition job2 : Job.t := Job.mk (Some "go"%string) (Some [1%R; 0%R]).
Definition candidate2 : Candidate.t :=
  Candidate.mk (Some {[ "skills_array"%string := JStrList ["python"%string] ]})
               (Some [1%R; 0%R]).

Definition db : Session :=
  {| jobs := <[1%Z := job1]> (<[2%Z := job2]> ∅);
     candidates := <[1%Z := candidate1]> (<[2%Z := candidate2]> ∅);
     match_history := [] |}.

Definition job_candidate_match (key : Z) : JobCandidateMatch.t :=
  {| JobCandidateMatch.id := key; JobCandidateMatch.job_id := key;
     JobCandidateMatch.candidate_id := key; JobCandidateMatch.score := 0%R;
     JobCandidateMatch.match_data := None;
     JobCandidateMatch.status := "new"%string;
     JobCandidateMatch.user_id := None |}.

Definition candidate_job_match (key : Z) : CandidateJobMatch.t :=
  {| CandidateJobMatch.id := key; CandidateJobMatch.candidate_id := key;
     CandidateJobMatch.job_id := key; CandidateJobMatch.match_score := 0%R;
     CandidateJobMatch.skills_match_score := 0%R;
     CandidateJobMatch.embedding_match_score := 0%R;
     CandidateJobMatch.match_data := None;
     CandidateJobMatch.user_id := None |}.

Definition now : string := "2024-01-01T00:00:00"%string.

End Sample.

(** ** Statements of the specification that are compared with the code *)

(** Identical embeddings of non-zero norm and no skill overlap give the
    match score 0.6, whatever the embedding. *)
Definition identical_embeddings_score_six_tenths : Prop :=
  forall (a : list PrimFloat.float) (similarity : PrimFloat.float),
    PrimFloat.eqb (Binary64.norm a) PrimFloat.zero = false ->
    Binary64._cosine_similarity (Some a) (Some a) = Return similarity ->
    Binary64.total_score similarity PrimFloat.zero = Binary64.six_tenths
    /\ Binary64.match_score PrimFloat.zero similarity = Binary64.six_tenths.

(** Vectors of unequal length always make the similarity fail. *)
Definition unequal_lengths_always_raise : Prop :=
  forall a b : list R, length a <> length b ->
    raises (JobCandidateMatch._cosine_similarity (Some a) (Some b))
    /\ raises (CandidateJobMatch._calculate_embedding_match a b).

(** The skill overlap is the Jaccard similarity of the names case-folded and
    trimmed. *)
Definition skill_overlap_folds_and_trims : Prop :=
  forall (candidate : Candidate.t) (job : Job.t),
    CandidateJobMatch._calculate_skills_match candidate job
    = skill_overlap_fold_trim (default [] (Candidate.skills_array candidate))
                              (Job.skills_array job).

(** A score computation whose candidate or job is missing returns 0.0. *)
Definition missing_entity_scores_zero : Prop :=
  forall db now self je ce,
    jobs db !! JobCandidateMatch.job_id self = None
    \/ candidates db !! JobCandidateMatch.candidate_id self = None ->
    exists self', JobCandidateMatch.calculate_score db now self je ce
                  = Return (0%R, self', db).

(** A job asking for python and a candidate offering the same name with a
    leading blank. *)
Definition job_python : Job.t := Job.mk (Some "python"%string) None.
Definition candidate_blank_python : Candidate.t :=
  Candidate.mk (Some {[ "skills_array"%string := JStrList [" python"%string] ]}) None.

(** Every score computation records a payload holding the time of the
    computation. *)
Definition score_detail_always_recorded : Prop :=
  (forall db now self je ce v self' db',
     JobCandidateMatch.calculate_score db now self je ce = Return (v, self', db') ->
     exists d, JobCandidateMatch.match_data self' = Some d
               /\ d !! "last_calculated_at"%string = Some (JStr now))
  /\ (forall db now self candidate job c j v self' db',
        CandidateJobMatch.or_query candidate (candidates db)
          (CandidateJobMatch.candidate_id self) = Some c ->
        CandidateJobMatch.or_query job (jobs db)
          (CandidateJobMatch.job_id self) = Some j ->
        CandidateJobMatch.calculate_match_score db now self candidate job
        = Return (v, self', db') ->
        exists d, CandidateJobMatch.match_data self' = Some d
                  /\ d !! "calculation_timestamp"%string = Some (JStr now)).

(** Every change of the score comes with one new history entry holding the
    old and the new score. *)
Definition score_change_writes_history : Prop :=
  forall db now self je ce v self' db',
    JobCandidateMatch.calculate_score db now self je ce = Return (v, self', db') ->
    JobCandidateMatch.score self' <> JobCandidateMatch.score self ->
    exists e, match_history db' = match_history db ++ [e]
              /\ MatchHistory.old_score e = Some (JobCandidateMatch.score self)
              /\ MatchHistory.new_score e = Some (JobCandidateMatch.score self').

(** The keys of the payload of [calculate_match_score]. *)
Definition match_score_payload_keys : gset string :=
  {[ "skills_match_score"%string; "embedding_match_score"%string;
     "total_score"%string; "calculation_timestamp"%string ]}.



(** The ids of the sample jobs and candidates; no user and no recruiter. *)
Definition sample_parents : Table.Parents :=
  {| Table.job_ids := {[ 1%Z; 2%Z ]};
     Table.candidate_ids := {[ 1%Z; 2%Z ]};
     Table.user_ids := ∅;
     Table.recruiter_ids := ∅ |}.



(** ** Results compared up to the exception raised *)

(** The value a call returns, if it returns. *)
Definition result_value {A : Type} (r : PyResult A) : option A :=
  match r with
  | Return a => Some a
  | Raise _ => None
  end.

(** The score a score computation returns, if it returns. *)
Definition score_value {S : Type} (r : PyResult (R * S * Session)) : option R :=
  match r with
  | Return (v, _, _) => Some v
  | Raise _ => None
  end.

(** ** Words used to state facts about skill lists *)

(** The number of occurrences of a character in a string. *)
Fixpoint count_char (c : ascii) (s : string) : nat :=
  match s with
  | EmptyString => 0
  | String d s' => (if Ascii.eqb d c then 1 else 0) + count_char c s'
  end.

(** The character occurs in the string. *)
Definition contains_char (c : ascii) (s : string) : Prop :=
  In c (list_ascii_of_string s).

(** ** The [skills_array] setter of [Candidate] (models/candidate.py) *)

Module CandidateSetter.

(** [candidate.skills_array = value]: an unset or empty [parsed_data] becomes
    the empty dict, and the key is written only for a truthy [value]. *)
Definition set_skills_array (self : Candidate.t) (value : option (list string))
    : Candidate.t :=
  let data :=
    match Candidate.parsed_data self with
    | Some d => if bool_decide (d = ∅) then ∅ else d
    | None => ∅
    end in
  {| Candidate.parsed_data :=
       Some (match value with
             | Some ((_ :: _) as skills) =>
                 <["skills_array"%string := JStrList skills]> data
             | _ => data
             end);
     Candidate.embedding := Candidate.embedding self |}.

End CandidateSetter.

(** ** The processing status of a candidate (models/candidate.py) *)

Module CandidateProcessing.

(** The columns of [Candidate] the status methods read and write. *)
Record t : Type := mk {
  id : Z;
  processing_status : option string;
  error_message : option string
}.

(** [CandidateProcessingHistory]: the columns set by [add_status_history]. *)
Record History : Type := mkHistory {
  candidate_id : Z;
  from_status : option string;
  to_status : string;
  history_error_message : option string;
  duration : R
}.

(** What a call does: it returns, or raises [ValueError] with a message. *)
Inductive Outcome : Type :=
  | Done
  | ValueError (message : string).

(** [Candidate._status_transitions] *)
Definition _status_transitions : gmap string (list string) :=
  <["failed"%string := ["pending"%string]]>
    (<["complete"%string := ["pending"%string]]>
      (<["processing"%string := ["complete"; "failed"]%string]>
        (<["pending"%string := ["processing"%string]]> ∅))).

(** [is_valid_transition(new_status)] *)
Definition is_valid_transition (self : t) (new_status : string) : bool :=
  match processing_status self with
  | None => false
  | Some current =>
      match _status_transitions !! current with
      | None => false
      | Some targets => bool_decide (new_status ∈ targets)
      end
  end.

(** [str(status)] inside the f-string of the error message. *)
Definition str_status (status : option string) : string :=
  match status with
  | Some s => s
  | None => "None"
  end.

(** [add_status_history(from_status, to_status, error_message)]: one row
    added to the session, here the [candidate_processing_history] table. *)
Definition add_status_history (table : list History) (self : t)
    (from_status : option string) (to_status : string)
    (error_message : option string) : list History :=
  let duration := 0%R in
  table ++ [mkHistory (id self) from_status to_status error_message duration].

(** [transition_to(new_status, error_message=None)]: the outcome, the
    candidate and the history table after the call. *)
Definition transition_to (table : list History) (self : t) (new_status : string)
    (error_message : option string) : Outcome * t * list History :=
  if negb (is_valid_transition self new_status) then
    (ValueError ("Invalid status transition: "
                 ++ str_status (processing_status self) ++ " -> " ++ new_status),
     self, table)
  else
    let old_status := processing_status self in
    let message :=
      if String.eqb new_status "failed" then error_message
      else if String.eqb new_status "pending"
              && bool_decide (old_status = Some "failed"%string)
           then None
           else CandidateProcessing.error_message self in
    let self' :=
      {| id := id self; processing_status := Some new_status;
         error_message := message |} in
    (Done, self', add_status_history table self' old_status new_status error_message).

(** A caller that requests transitions one after the other and goes on after
    a [ValueError]. *)
Fixpoint request_all (table : list History) (self : t)
    (requests : list (string * option string)) : t * list History :=
  match requests with
  | [] => (self, table)
  | (new_status, error_message) :: rest =>
      let '(_, self', table') := transition_to table self new_status error_message in
      request_all table' self' rest
  end.

(** The rows lead from status [start] to status [final], each row starting
    where the previous one ended. *)
Fixpoint chained (start : option string) (rows : list History)
    (final : option string) : Prop :=
  match rows with
  | [] => final = start
  | row :: rest =>
      from_status row = start /\ chained (Some (to_status row)) rest final
  end.

(** The five transitions of the table, as pairs. *)
Definition transition_pairs : list (string * string) :=
  [("pending", "processing"); ("processing", "complete");
   ("processing", "failed"); ("complete", "pending");
   ("failed", "pending")]%string.

End CandidateProcessing.

(** ** The status methods added by [add_status_transition_methods]
    (models/candidate_status.py) *)

Module CandidateStatusMethods.

(** The local [status_transitions] dict. *)
Definition status_transitions : gmap string (list string) :=
  <["failed"%string := ["pending"%string]]>
    (<["complete"%string := ["pending"%string]]>
      (<["processing"%string := ["complete"; "failed"]%string]>
        (<["pending"%string := ["processing"%string]]> ∅))).

(** [is_valid_transition(self, new_status)] *)
Definition is_valid_transition (self : CandidateProcessing.t) (new_status : string)
    : bool :=
  match CandidateProcessing.processing_status self with
  | None => false
  | Some current =>
      if bool_decide (is_Some (status_transitions !! current)) then
        let valid_transitions := default [] (status_transitions !! current) in
        bool_decide (new_status ∈ valid_transitions)
      else false
  end.

End CandidateStatusMethods.

(** ** Expiry and owner columns of [Job] (models/job.py)

    A [datetime] is its number of microseconds since the epoch, a
    [timedelta] a number of microseconds, and [timedelta.days] the quotient
    by a day rounded down. Each argument [now] is one reading of
    [datetime.utcnow()], in the order the method takes them. *)

Module JobLifecycle.

Record t : Type := mk {
  user_id : option Z;
  recruiter_id : option Z;
  expires_at : option Z
}.

Definition day : Z := 86400000000%Z.

(** [datetime.min] and [datetime.max], in microseconds since the epoch, and
    the largest [days] a [timedelta] takes. *)
Definition datetime_min : Z := (-62135596800000000)%Z.
Definition datetime_max : Z := 253402300799999999%Z.
Definition timedelta_max_days : Z := 999999999%Z.

(** [timedelta(days=n)] for an [int] [n] *)
Definition timedelta_days (n : Z) : PyResult Z :=
  if (Z.abs n <=? timedelta_max_days)%Z then Return (n * day)%Z
  else Raise OverflowError.

(** [moment + delta] *)
Definition datetime_add (moment delta : Z) : PyResult Z :=
  if (datetime_min <=? moment + delta)%Z && (moment + delta <=? datetime_max)%Z
  then Return (moment + delta)%Z
  else Raise OverflowError.

(** [delta.days] *)
Definition days_of (delta : Z) : Z := (delta / day)%Z.

(** [Job.before_save(mapper, connection, target)] *)
Definition before_save (target : t) : t :=
  match user_id target, recruiter_id target with
  | Some u, None =>
      {| user_id := Some u; recruiter_id := Some u;
         expires_at := expires_at target |}
  | None, Some r =>
      {| user_id := Some r; recruiter_id := Some r;
         expires_at := expires_at target |}
  | _, _ => target
  end.

(** [is_expired()] *)
Definition is_expired (now : Z) (self : t) : bool :=
  match expires_at self with
  | None => false
  | Some e => (e <? now)%Z
  end.

(** [days_until_expiry()] *)
Definition days_until_expiry (now1 now2 : Z) (self : t) : Z :=
  match expires_at self with
  | None => 0%Z
  | Some e =>
      if is_expired now1 self then 0%Z
      else Z.max 0 (days_of (e - now2)%Z)
  end.

(** [renew(days=60)]. A job without expiry date reads the clock once
    ([now1]); a job with one reads it in [is_expired] ([now1]) and, when
    expired, again for the new date ([now2]). *)
Definition renew (now1 now2 : Z) (self : t) (days : Z) : PyResult t :=
  match expires_at self with
  | None =>
      delta <- timedelta_days days ;;
      expires <- datetime_add now1 delta ;;
      Return {| user_id := user_id self; recruiter_id := recruiter_id self;
                expires_at := Some expires |}
  | Some e =>
      if is_expired now1 self then
        delta <- timedelta_days days ;;
        expires <- datetime_add now2 delta ;;
        Return {| user_id := user_id self; recruiter_id := recruiter_id self;
                  expires_at := Some expires |}
      else
        delta <- timedelta_days days ;;
        expires <- datetime_add e delta ;;
        Return {| user_id := user_id self; recruiter_id := recruiter_id self;
                  expires_at := Some expires |}
  end.

End JobLifecycle.

(** ** The name parts of a candidate (models/candidate.py) *)

Module CandidateName.

(** [c in s] for a character *)
Fixpoint char_in (c : ascii) (s : string) : bool :=
  match s with
  | EmptyString => false
  | String d s' => Ascii.eqb d c || char_in c s'
  end.

(** The [first_name] property of a candidate whose [name] column holds
    [name]; [split] never returns an empty list, so item 0 exists. *)
Definition first_name (name : option string) : option string :=
  match name with
  | Some s =>
      if Py.truthy_str s && char_in " " s
      then Some (hd EmptyString (Py.split " " s))
      else name
  | None => None
  end.

(** The [last_name] property. *)
Definition last_name (name : option string) : string :=
  match name with
  | Some s =>
      if Py.truthy_str s && char_in " " s
      then String.concat " " (tl (Py.split " " s))
      else EmptyString
  | None => EmptyString
  end.

(** Truth value of an optional string. *)
Definition truthy (o : option string) : bool :=
  match o with
  | Some s => Py.truthy_str s
  | None => false
  end.

(** [get_full_name()] *)
Definition get_full_name (name : option string) : string :=
  let first := first_name name in
  let last := last_name name in
  if truthy first && Py.truthy_str last
  then (default EmptyString first ++ " " ++ last)%string
  else if truthy first then default EmptyString first
  else if Py.truthy_str last then last
  else "Unknown Candidate"%string.

End CandidateName.

(** * Properties *)

(** ** Python builtins *)

Lemma max_min_clamp_bounds (s : R) : (0 <= Py.max 0 (Py.min 1 s) <= 1)%R.
Proof.
  unfold Py.max, Py.min.
  destruct (Rlt_dec s 1) as [Hs | Hs]; destruct (Rlt_dec 0 _) as [Hp | Hp]; lra.
Qed.

Lemma max_min_clamp_negative (s : R) : (s <= 0)%R -> Py.max 0 (Py.min 1 s) = 0%R.
Proof.
  intros Hneg. unfold Py.max, Py.min.
  destruct (Rlt_dec s 1) as [Hs | Hs]; destruct (Rlt_dec 0 _) as [Hp | Hp]; lra.
Qed.

Lemma max_min_clamp_one : Py.max 0 (Py.min 1 1) = 1%R.
Proof.
  unfold Py.max, Py.min.
  destruct (Rlt_dec 1 1) as [Hs | Hs]; destruct (Rlt_dec 0 _) as [Hp | Hp]; lra.
Qed.

Lemma truthy_set_false (s : gset string) : Py.truthy_set s = false <-> s = ∅.
Proof.
  unfold Py.truthy_set. rewrite negb_false_iff, bool_decide_eq_true. reflexivity.
Qed.

Lemma truthy_set_true (s : gset string) : Py.truthy_set s = true <-> s <> ∅.
Proof.
  unfold Py.truthy_set. rewrite negb_true_iff, bool_decide_eq_false. reflexivity.
Qed.

Lemma lower_set_nil : lower_set [] = ∅.
Proof. reflexivity. Qed.

Lemma list_to_set_cons_nonempty (s : string) (l : list string) :
  (list_to_set (s :: l) : gset string) <> ∅.
Proof. simpl. set_solver. Qed.

Lemma lower_set_cons_nonempty (s : string) (l : list string) :
  lower_set (s :: l) <> ∅.
Proof. apply (list_to_set_cons_nonempty (Py.lower s) (map Py.lower l)). Qed.

(** ** Skill overlap *)

Lemma jaccard_comm (A B : gset string) : jaccard A B = jaccard B A.
Proof.
  unfold jaccard.
  rewrite (comm_L (∩) A B), (comm_L (∪) A B).
  destruct (decide (A = ∅ \/ B = ∅)) as [H | H];
    destruct (decide (B = ∅ \/ A = ∅)) as [H' | H']; try reflexivity; tauto.
Qed.

Lemma union_size_pos (A B : gset string) : A <> ∅ -> size (A ∪ B) <> 0%nat.
Proof.
  intros HA Hsz. apply size_empty_inv in Hsz.
  apply HA. apply leibniz_equiv. set_solver.
Qed.

(** What the guarded division of both implementations computes. *)
Lemma guarded_ratio_is_jaccard (A B : gset string) :
  (if negb (Py.truthy_set A) || negb (Py.truthy_set B) then 0%R
   else Py.truediv (size (A ∩ B)) (size (A ∪ B))) = jaccard A B.
Proof.
  unfold jaccard, Py.truthy_set.
  destruct (decide (A = ∅ \/ B = ∅)) as [H | H];
    repeat case_bool_decide; simpl; try reflexivity; tauto.
Qed.

Lemma skills_match_is_overlap (candidate : Candidate.t) (job : Job.t) :
  CandidateJobMatch._calculate_skills_match candidate job
  = skill_overlap_lower (default [] (Candidate.skills_array candidate))
                        (Job.skills_array job).
Proof.
  unfold CandidateJobMatch._calculate_skills_match, skill_overlap_lower.
  set (A := match Candidate.skills_array candidate with
            | Some ((_ :: _) as skills) => lower_set skills
            | _ => ∅
            end).
  assert (HA : A = lower_set (default [] (Candidate.skills_array candidate))).
  { subst A. destruct (Candidate.skills_array candidate) as [[| s l] |]; reflexivity. }
  set (B := if Py.truthy_list (Job.skills_array job)
            then lower_set (Job.skills_array job) else ∅).
  assert (HB : B = lower_set (Job.skills_array job)).
  { subst B. destruct (Job.skills_array job); reflexivity. }
  rewrite <- HA, <- HB. clearbody A B. clear HA HB.
  rewrite <- guarded_ratio_is_jaccard.
  destruct (Py.truthy_set A) eqn:HtA; simpl; [| reflexivity].
  destruct (Py.truthy_set B) eqn:HtB; simpl; [| reflexivity].
  apply truthy_set_true in HtA.
  destruct (0 <? size (A ∪ B))%nat eqn:Hpos; [reflexivity |].
  apply Nat.ltb_ge in Hpos. pose proof (union_size_pos A B HtA). lia.
Qed.

Lemma skill_match_score_is_overlap (db : Session) (self : JobCandidateMatch.t) :
  JobCandidateMatch._calculate_skill_match_score db self
  = match jobs db !! JobCandidateMatch.job_id self,
          candidates db !! JobCandidateMatch.candidate_id self with
    | Some job, Some candidate =>
        skill_overlap_lower (default [] (Candidate.skills_array candidate))
                            (Job.skills_array job)
    | _, _ => 0%R
    end.
Proof.
  unfold JobCandidateMatch._calculate_skill_match_score, skill_overlap_lower.
  destruct (jobs db !! _) as [job |]; [| reflexivity].
  destruct (candidates db !! _) as [candidate |]; [| reflexivity].
  set (A := lower_set (default [] (Candidate.skills_array candidate))).
  set (B := lower_set (Job.skills_array job)).
  rewrite (jaccard_comm A B), <- guarded_ratio_is_jaccard.
  destruct (Py.truthy_set B) eqn:HtB; simpl; [| reflexivity].
  destruct (Py.truthy_set A) eqn:HtA; simpl; [| reflexivity].
  apply truthy_set_true in HtB.
  destruct (size (B ∪ A) =? 0)%nat eqn:Hz; [| reflexivity].
  apply Nat.eqb_eq in Hz. pose proof (union_size_pos B A HtB). lia.
Qed.

(** ** Cosine similarity *)

Lemma sum_products_self_nonneg (a : list R) : (0 <= Np.sum_products a a)%R.
Proof.
  induction a as [| x a IH]; simpl; [lra |].
  pose proof (Rle_0_sqr x) as Hx. unfold Rsqr in Hx. lra.
Qed.

Lemma norm_nonneg (a : list R) : (0 <= Np.norm a)%R.
Proof. apply sqrt_pos. Qed.

Lemma norm_nil : Np.norm [] = 0%R.
Proof. unfold Np.norm. simpl. apply sqrt_0. Qed.

Lemma norm_sqr (a : list R) : (Np.norm a * Np.norm a = Np.sum_products a a)%R.
Proof. unfold Np.norm. apply sqrt_sqrt, sum_products_self_nonneg. Qed.

Lemma dot_aligned (a b : list R) :
  length a = length b -> Np.dot a b = Return (Np.sum_products a b).
Proof. intros Hlen. unfold Np.dot. rewrite decide_True by exact Hlen. reflexivity. Qed.

Lemma dot_not_aligned (a b : list R) :
  length a <> length b ->
  Np.dot a b = Raise (ValueError_shapes_not_aligned (length a) (length b)).
Proof. intros Hlen. unfold Np.dot. rewrite decide_False by exact Hlen. reflexivity. Qed.

(** On non-empty lists the two implementations are the same function. *)
Lemma cosine_similarity_is_embedding_match (x y : R) (a b : list R) :
  JobCandidateMatch._cosine_similarity (Some (x :: a)) (Some (y :: b))
  = CandidateJobMatch._calculate_embedding_match (x :: a) (y :: b).
Proof. reflexivity. Qed.

Lemma cosine_similarity_falsy (va vb : option (list R)) :
  Py.truthy_opt_list va = false \/ Py.truthy_opt_list vb = false ->
  JobCandidateMatch._cosine_similarity va vb = Return 0%R.
Proof.
  intros [H | H]; destruct va as [[| x a] |]; destruct vb as [[| y b] |];
    simpl in H; try discriminate; reflexivity.
Qed.

Lemma embedding_match_aligned (a b : list R) :
  length a = length b ->
  exists s, CandidateJobMatch._calculate_embedding_match a b = Return s
    /\ (0 <= s <= 1)%R
    /\ ((cosine a b < 0)%R -> s = 0%R)
    /\ (Np.norm a = 0%R \/ Np.norm b = 0%R -> s = 0%R)
    /\ (Np.norm a <> 0%R -> Np.norm b <> 0%R ->
        (0 <= cosine a b <= 1)%R -> s = cosine a b).
Proof.
  intros Hlen. unfold CandidateJobMatch._calculate_embedding_match.
  rewrite (dot_aligned a b Hlen). simpl.
  destruct (Req_dec_T (Np.norm a) 0) as [Ha | Ha].
  { exists 0%R. repeat split; try lra; auto; intros; try contradiction; try lra. }
  destruct (Req_dec_T (Np.norm b) 0) as [Hb | Hb].
  { exists 0%R. repeat split; try lra; auto; intros; try contradiction; try lra. }
  fold (cosine a b). eexists. split; [reflexivity |].
  split; [apply max_min_clamp_bounds |].
  split; [intros Hneg; apply max_min_clamp_negative; lra |].
  split; [intros [H | H]; contradiction |].
  intros _ _ Hrange. unfold Py.max, Py.min.
  destruct (Rlt_dec (cosine a b) 1); destruct (Rlt_dec 0 _); lra.
Qed.

Lemma embedding_match_not_aligned (a b : list R) :
  length a <> length b ->
  CandidateJobMatch._calculate_embedding_match a b
  = Raise (ValueError_shapes_not_aligned (length a) (length b)).
Proof.
  intros Hlen. unfold CandidateJobMatch._calculate_embedding_match.
  rewrite (dot_not_aligned a b Hlen). reflexivity.
Qed.

Lemma sum_products_self_pos (x : R) (a : list R) :
  Np.norm (x :: a) <> 0%R -> (0 < Np.sum_products (x :: a) (x :: a))%R.
Proof.
  intros Hn. pose proof (sum_products_self_nonneg (x :: a)) as Hge.
  destruct (Req_dec_T (Np.sum_products (x :: a) (x :: a)) 0) as [Hz | Hz]; [| lra].
  exfalso. apply Hn. unfold Np.norm. rewrite Hz. apply sqrt_0.
Qed.

(** A vector of non-zero norm has cosine 1 with itself. *)
Lemma cosine_self (a : list R) : Np.norm a <> 0%R -> cosine a a = 1%R.
Proof.
  intros Hn. unfold cosine. rewrite norm_sqr.
  apply Rdiv_diag. rewrite <- norm_sqr. nra.
Qed.

Lemma embedding_match_self (a : list R) :
  Np.norm a <> 0%R ->
  CandidateJobMatch._calculate_embedding_match a a = Return 1%R.
Proof.
  intros Hn.
  destruct (embedding_match_aligned a a eq_refl) as (s & Hs & _ & _ & _ & Hcos).
  rewrite Hs. f_equal. rewrite Hcos; auto; rewrite cosine_self by exact Hn; [reflexivity | lra].
Qed.

(** ** The two score computations, path by path *)

Lemma truthy_opt_list_true {A : Type} (o : option (list A)) :
  Py.truthy_opt_list o = true <-> exists x l, o = Some (x :: l).
Proof.
  split.
  - destruct o as [[| x l] |]; simpl; try discriminate. eauto.
  - intros (x & l & ->). reflexivity.
Qed.

Section CalculateScore.
Import JobCandidateMatch.
Variables (db : Session) (now : string) (self : t).
Variables (job_embedding candidate_embedding : option (list R)).

Abbreviation je := (resolve_job_embedding db self job_embedding).
Abbreviation ce := (resolve_candidate_embedding db self candidate_embedding).
Abbreviation skill := (_calculate_skill_match_score db self).

Lemma calculate_score_fallback :
  Py.truthy_opt_list je = false \/ Py.truthy_opt_list ce = false ->
  calculate_score db now self job_embedding candidate_embedding
  = Return (skill, self, db).
Proof.
  intros H. unfold calculate_score.
  destruct H as [-> | ->]; simpl; [reflexivity |].
  rewrite orb_true_r. reflexivity.
Qed.

Lemma calculate_score_full (s : R) :
  Py.truthy_opt_list je = true -> Py.truthy_opt_list ce = true ->
  _cosine_similarity je ce = Return s ->
  calculate_score db now self job_embedding candidate_embedding
  = Return ((s * 0.6 + skill * 0.4)%R,
            {| id := id self; job_id := job_id self;
               candidate_id := candidate_id self;
               score := (s * 0.6 + skill * 0.4)%R;
               match_data :=
                 Some (score_payload now s (skill * 0.4)%R
                         (s * 0.6 + skill * 0.4)%R (match_data self));
               status := status self; user_id := user_id self |},
            db).
Proof.
  intros Hj Hc Hs. unfold calculate_score.
  rewrite Hj, Hc, Hs. reflexivity.
Qed.

Lemma calculate_score_raises (e : PyExc) :
  Py.truthy_opt_list je = true -> Py.truthy_opt_list ce = true ->
  _cosine_similarity je ce = Raise e ->
  calculate_score db now self job_embedding candidate_embedding = Raise e.
Proof.
  intros Hj Hc Hs. unfold calculate_score.
  rewrite Hj, Hc, Hs. reflexivity.
Qed.

End CalculateScore.

Section CalculateMatchScore.
Import CandidateJobMatch.
Variables (db : Session) (now : string) (self : t).
Variables (candidate : option Candidate.t) (job : option Job.t).

Lemma calculate_match_score_missing :
  or_query candidate (candidates db) (candidate_id self) = None
  \/ or_query job (jobs db) (job_id self) = None ->
  calculate_match_score db now self candidate job = Return (0%R, self, db).
Proof.
  intros H. unfold calculate_match_score.
  destruct H as [-> | ->]; [reflexivity |].
  destruct (or_query candidate _ _); reflexivity.
Qed.

Variables (c : Candidate.t) (j : Job.t).
Hypothesis Hc : or_query candidate (candidates db) (candidate_id self) = Some c.
Hypothesis Hj : or_query job (jobs db) (job_id self) = Some j.

Abbreviation skills := (_calculate_skills_match c j).

Lemma calculate_match_score_fallback :
  Py.truthy_opt_list (Candidate.embedding c) = false
  \/ Py.truthy_opt_list (Job.embedding j) = false ->
  calculate_match_score db now self candidate job
  = Return (skills,
            {| id := id self; candidate_id := candidate_id self;
               job_id := job_id self; match_score := skills;
               skills_match_score := skills; embedding_match_score := 0%R;
               match_data := match_data self; user_id := user_id self |},
            db).
Proof.
  intros H. unfold calculate_match_score. rewrite Hc, Hj.
  destruct (Candidate.embedding c) as [[| x a] |];
    destruct (Job.embedding j) as [[| y b] |];
    try reflexivity; destruct H as [H | H]; discriminate H.
Qed.

Lemma calculate_match_score_full (a b : list R) (s : R) :
  Candidate.embedding c = Some a -> Job.embedding j = Some b ->
  a <> [] -> b <> [] ->
  _calculate_embedding_match a b = Return s ->
  calculate_match_score db now self candidate job
  = Return ((skills * 0.4 + s * 0.6)%R,
            {| id := id self; candidate_id := candidate_id self;
               job_id := job_id self;
               match_score := (skills * 0.4 + s * 0.6)%R;
               skills_match_score := skills; embedding_match_score := s;
               match_data :=
                 Some (match_score_payload now skills s (skills * 0.4 + s * 0.6)%R);
               user_id := user_id self |},
            db).
Proof.
  intros Ha Hb Hna Hnb Hs. unfold calculate_match_score.
  rewrite Hc, Hj, Ha, Hb.
  destruct a as [| x a']; [contradiction |].
  destruct b as [| y b']; [contradiction |].
  rewrite Hs. reflexivity.
Qed.

Lemma calculate_match_score_raises (a b : list R) (e : PyExc) :
  Candidate.embedding c = Some a -> Job.embedding j = Some b ->
  a <> [] -> b <> [] ->
  _calculate_embedding_match a b = Raise e ->
  calculate_match_score db now self candidate job = Raise e.
Proof.
  intros Ha Hb Hna Hnb Hs. unfold calculate_match_score.
  rewrite Hc, Hj, Ha, Hb.
  destruct a as [| x a']; [contradiction |].
  destruct b as [| y b']; [contradiction |].
  rewrite Hs. reflexivity.
Qed.

End CalculateMatchScore.
(** ** Facts about the sample rows *)

Lemma sample_lookups :
  jobs Sample.db !! 1%Z = Some Sample.job1
  /\ jobs Sample.db !! 2%Z = Some Sample.job2
  /\ candidates Sample.db !! 1%Z = Some Sample.candidate1
  /\ candidates Sample.db !! 2%Z = Some Sample.candidate2.
Proof. repeat split; reflexivity. Qed.

Lemma sample_skills :
  Job.skills_array Sample.job1 = ["python"; "go"]%string
  /\ Candidate.skills_array Sample.candidate1 = Some ["python"; "sql"]%string
  /\ Job.skills_array Sample.job2 = ["go"%string]
  /\ Candidate.skills_array Sample.candidate2 = Some ["python"%string].
Proof. repeat split; vm_compute; reflexivity. Qed.

Lemma jaccard_of_sizes (A B : gset string) (i u : nat) :
  A <> ∅ -> B <> ∅ -> size (A ∩ B) = i -> size (A ∪ B) = u ->
  jaccard A B = (INR i / INR u)%R.
Proof.
  intros HA HB <- <-. unfold jaccard.
  rewrite decide_False by tauto. reflexivity.
Qed.

Lemma jaccard_disjoint (A B : gset string) : A ∩ B = ∅ -> jaccard A B = 0%R.
Proof.
  intros Hd. unfold jaccard. destruct (decide _); [reflexivity |].
  rewrite Hd, size_empty. simpl. lra.
Qed.

Lemma sample_overlap_third :
  skill_overlap_lower ["python"; "sql"]%string ["python"; "go"]%string = (1 / 3)%R.
Proof.
  unfold skill_overlap_lower.
  rewrite (jaccard_of_sizes _ _ 1 3); [simpl; lra | ..];
    try apply lower_set_cons_nonempty; vm_compute; reflexivity.
Qed.

Lemma sample_overlap_disjoint :
  lower_set ["python"%string] ∩ lower_set ["go"%string] = ∅.
Proof.
  apply (bool_decide_eq_true_1
           (lower_set ["python"%string] ∩ lower_set ["go"%string] = ∅)).
  vm_compute. reflexivity.
Qed.

Lemma norm_unit : Np.norm [1%R; 0%R] = 1%R.
Proof.
  unfold Np.norm. simpl.
  replace (1 * 1 + (0 * 0 + 0))%R with 1%R by lra. apply sqrt_1.
Qed.

(** ** Weighted combination and skill-only fallback *)

(** The claim C1 as worded fails on the code: binary64 gives the identical
    embeddings [(1, 1)] the similarity 0.9999999999999998, not 1.0, and with
    no skill overlap both combinations then stay below 0.6. *)
Lemma identical_diagonal_below_six_tenths :
  (exists similarity,
     Binary64._cosine_similarity (Some Binary64.diagonal) (Some Binary64.diagonal)
     = Return similarity
     /\ Binary64._calculate_embedding_match Binary64.diagonal Binary64.diagonal
        = Return similarity
     /\ PrimFloat.ltb similarity PrimFloat.one = true
     /\ PrimFloat.ltb (Binary64.total_score similarity PrimFloat.zero)
          Binary64.six_tenths = true
     /\ PrimFloat.ltb (Binary64.match_score PrimFloat.zero similarity)
          Binary64.six_tenths = true)
  /\ ~ identical_embeddings_score_six_tenths.
Proof.
  split.
  - eexists. split; [vm_compute; reflexivity |].
    repeat split; vm_compute; reflexivity.
  - intros Hclaim.
    destruct (Hclaim Binary64.diagonal _ eq_refl eq_refl) as [Htotal _].
    apply (f_equal (fun x => PrimFloat.ltb x Binary64.six_tenths)) in Htotal.
    vm_compute in Htotal. discriminate Htotal.
Qed.

(** C1 (amended). When both embeddings are available (non-empty, of one
    length), both score computations return 0.6 times the cosine-similarity
    component plus 0.4 times the skill-overlap component and store that value
    as the match score. In particular, when the similarity component is 1.0
    and the skill sets are disjoint the score is exactly 0.6, also on
    binary64, where 1.0 * 0.6 + 0.0 * 0.4 is 0.6 and the identical embeddings
    [(1, 0)] have similarity 1.0. *)
Theorem combined_score_weights :
  (forall db now self je ce a b,
     JobCandidateMatch.resolve_job_embedding db self je = Some a ->
     JobCandidateMatch.resolve_candidate_embedding db self ce = Some b ->
     a <> [] -> b <> [] -> length a = length b ->
     exists sim self',
       JobCandidateMatch._cosine_similarity (Some a) (Some b) = Return sim
       /\ JobCandidateMatch.calculate_score db now self je ce
          = Return ((0.6 * sim
                     + 0.4 * JobCandidateMatch._calculate_skill_match_score db self)%R,
                    self', db)
       /\ JobCandidateMatch.score self'
          = (0.6 * sim
             + 0.4 * JobCandidateMatch._calculate_skill_match_score db self)%R)
  /\ (forall db now self candidate job c j a b,
        CandidateJobMatch.or_query candidate (candidates db)
          (CandidateJobMatch.candidate_id self) = Some c ->
        CandidateJobMatch.or_query job (jobs db)
          (CandidateJobMatch.job_id self) = Some j ->
        Candidate.embedding c = Some a -> Job.embedding j = Some b ->
        a <> [] -> b <> [] -> length a = length b ->
        exists sim self',
          CandidateJobMatch._calculate_embedding_match a b = Return sim
          /\ CandidateJobMatch.calculate_match_score db now self candidate job
             = Return ((0.6 * sim
                        + 0.4 * CandidateJobMatch._calculate_skills_match c j)%R,
                       self', db)
          /\ CandidateJobMatch.match_score self'
             = (0.6 * sim + 0.4 * CandidateJobMatch._calculate_skills_match c j)%R)
  /\ (forall db now self je ce a b job candidate,
        JobCandidateMatch.resolve_job_embedding db self je = Some a ->
        JobCandidateMatch.resolve_candidate_embedding db self ce = Some b ->
        a <> [] -> b <> [] ->
        JobCandidateMatch._cosine_similarity (Some a) (Some b) = Return 1%R ->
        jobs db !! JobCandidateMatch.job_id self = Some job ->
        candidates db !! JobCandidateMatch.candidate_id self = Some candidate ->
        lower_set (default [] (Candidate.skills_array candidate))
          ∩ lower_set (Job.skills_array job) = ∅ ->
        exists self',
          JobCandidateMatch.calculate_score db now self je ce
          = Return (0.6%R, self', db)
          /\ JobCandidateMatch.score self' = 0.6%R)
  /\ (forall db now self candidate job c j a b,
        CandidateJobMatch.or_query candidate (candidates db)
          (CandidateJobMatch.candidate_id self) = Some c ->
        CandidateJobMatch.or_query job (jobs db)
          (CandidateJobMatch.job_id self) = Some j ->
        Candidate.embedding c = Some a -> Job.embedding j = Some b ->
        a <> [] -> b <> [] ->
        CandidateJobMatch._calculate_embedding_match a b = Return 1%R ->
        lower_set (default [] (Candidate.skills_array c))
          ∩ lower_set (Job.skills_array j) = ∅ ->
        exists self',
          CandidateJobMatch.calculate_match_score db now self candidate job
          = Return (0.6%R, self', db)
          /\ CandidateJobMatch.match_score self' = 0.6%R)
  /\ Binary64.total_score PrimFloat.one PrimFloat.zero = Binary64.six_tenths
  /\ Binary64.match_score PrimFloat.zero PrimFloat.one = Binary64.six_tenths
  /\ Binary64._cosine_similarity (Some Binary64.unit_x) (Some Binary64.unit_x)
     = Return PrimFloat.one
  /\ Binary64._calculate_embedding_match Binary64.unit_x Binary64.unit_x
     = Return PrimFloat.one.
Proof.
  assert (Hfull1 : forall db now self je ce a b sim,
     JobCandidateMatch.resolve_job_embedding db self je = Some a ->
     JobCandidateMatch.resolve_candidate_embedding db self ce = Some b ->
     a <> [] -> b <> [] ->
     JobCandidateMatch._cosine_similarity (Some a) (Some b) = Return sim ->
     exists self',
       JobCandidateMatch.calculate_score db now self je ce
       = Return ((0.6 * sim
                  + 0.4 * JobCandidateMatch._calculate_skill_match_score db self)%R,
                 self', db)
       /\ JobCandidateMatch.score self'
          = (0.6 * sim
             + 0.4 * JobCandidateMatch._calculate_skill_match_score db self)%R).
  { intros db now self je ce a b sim Hje Hce Ha Hb Hsim.
    destruct a as [| x a]; [contradiction |].
    destruct b as [| y b]; [contradiction |].
    replace (0.6 * sim
             + 0.4 * JobCandidateMatch._calculate_skill_match_score db self)%R
      with (sim * 0.6
            + JobCandidateMatch._calculate_skill_match_score db self * 0.4)%R
      by lra.
    eexists. split.
    - apply calculate_score_full; rewrite ?Hje, ?Hce; try reflexivity; exact Hsim.
    - reflexivity. }
  assert (Hfull2 : forall db now self candidate job c j a b sim,
     CandidateJobMatch.or_query candidate (candidates db)
       (CandidateJobMatch.candidate_id self) = Some c ->
     CandidateJobMatch.or_query job (jobs db)
       (CandidateJobMatch.job_id self) = Some j ->
     Candidate.embedding c = Some a -> Job.embedding j = Some b ->
     a <> [] -> b <> [] ->
     CandidateJobMatch._calculate_embedding_match a b = Return sim ->
     exists self',
       CandidateJobMatch.calculate_match_score db now self candidate job
       = Return ((0.6 * sim
                  + 0.4 * CandidateJobMatch._calculate_skills_match c j)%R,
                 self', db)
       /\ CandidateJobMatch.match_score self'
          = (0.6 * sim + 0.4 * CandidateJobMatch._calculate_skills_match c j)%R).
  { intros db now self candidate job c j a b sim Hc Hj Ha Hb Hna Hnb Hsim.
    replace (0.6 * sim + 0.4 * CandidateJobMatch._calculate_skills_match c j)%R
      with (CandidateJobMatch._calculate_skills_match c j * 0.4 + sim * 0.6)%R
      by lra.
    eexists. split.
    - apply (calculate_match_score_full db now self candidate job c j Hc Hj a b sim);
        assumption.
    - reflexivity. }
  split; [| split; [| split; [| split; [| repeat split; vm_compute; reflexivity]]]].
  - intros db now self je ce a b Hje Hce Ha Hb Hlen.
    destruct a as [| x a]; [contradiction |].
    destruct b as [| y b]; [contradiction |].
    destruct (embedding_match_aligned (x :: a) (y :: b) Hlen) as (sim & Hsim & _).
    rewrite <- cosine_similarity_is_embedding_match in Hsim.
    destruct (Hfull1 db now self je ce _ _ sim Hje Hce Ha Hb Hsim) as (self' & H1 & H2).
    exists sim, self'. auto.
  - intros db now self candidate job c j a b Hc Hj Hea Heb Ha Hb Hlen.
    destruct (embedding_match_aligned a b Hlen) as (sim & Hsim & _).
    destruct (Hfull2 db now self candidate job c j a b sim Hc Hj Hea Heb Ha Hb Hsim)
      as (self' & H1 & H2).
    exists sim, self'. auto.
  - intros db now self je ce a b job candidate Hje Hce Ha Hb Hsim Hjob Hcand Hdisj.
    destruct (Hfull1 db now self je ce a b 1%R Hje Hce Ha Hb Hsim)
      as (self' & H1 & H2).
    assert (Hskill : JobCandidateMatch._calculate_skill_match_score db self = 0%R).
    { rewrite skill_match_score_is_overlap, Hjob, Hcand.
      unfold skill_overlap_lower. apply jaccard_disjoint, Hdisj. }
    rewrite Hskill in H1, H2.
    replace (0.6 * 1 + 0.4 * 0)%R with 0.6%R in H1, H2 by lra.
    exists self'. split; assumption.
  - intros db now self candidate job c j a b Hc Hj Hea Heb Ha Hb Hsim Hdisj.
    destruct (Hfull2 db now self candidate job c j a b 1%R Hc Hj Hea Heb Ha Hb Hsim)
      as (self' & H1 & H2).
    assert (Hskill : CandidateJobMatch._calculate_skills_match c j = 0%R).
    { rewrite skills_match_is_overlap.
      unfold skill_overlap_lower. apply jaccard_disjoint, Hdisj. }
    rewrite Hskill in H1, H2.
    replace (0.6 * 1 + 0.4 * 0)%R with 0.6%R in H1, H2 by lra.
    exists self'. split; assumption.
Qed.

Lemma combined_score_weights_witness :
  (exists self',
     JobCandidateMatch.calculate_score Sample.db Sample.now
       (Sample.job_candidate_match 2) None None
     = Return (0.6%R, self', Sample.db)
     /\ JobCandidateMatch.score self' = 0.6%R)
  /\ (exists self',
        CandidateJobMatch.calculate_match_score Sample.db Sample.now
          (Sample.candidate_job_match 2) None None
        = Return (0.6%R, self', Sample.db)
        /\ CandidateJobMatch.match_score self' = 0.6%R).
Proof.
  destruct combined_score_weights as (_ & _ & H3 & H4 & _).
  assert (Hne : [1%R; 0%R] <> []) by discriminate.
  assert (Hunit : CandidateJobMatch._calculate_embedding_match [1%R; 0%R] [1%R; 0%R]
                  = Return 1%R).
  { apply embedding_match_self. rewrite norm_unit. lra. }
  split.
  - apply (H3 Sample.db Sample.now (Sample.job_candidate_match 2) None None
              [1%R; 0%R] [1%R; 0%R] Sample.job2 Sample.candidate2
              eq_refl eq_refl Hne Hne Hunit eq_refl eq_refl
              sample_overlap_disjoint).
  - apply (H4 Sample.db Sample.now (Sample.candidate_job_match 2) None None
              Sample.candidate2 Sample.job2 [1%R; 0%R] [1%R; 0%R]
              eq_refl eq_refl eq_refl eq_refl Hne Hne Hunit
              sample_overlap_disjoint).
Defined.

Lemma sample_skill_score_third :
  JobCandidateMatch._calculate_skill_match_score Sample.db
    (Sample.job_candidate_match 1) = (1 / 3)%R.
Proof.
  rewrite skill_match_score_is_overlap.
  change (jobs Sample.db !! JobCandidateMatch.job_id (Sample.job_candidate_match 1))
    with (jobs Sample.db !! 1%Z).
  change (candidates Sample.db
            !! JobCandidateMatch.candidate_id (Sample.job_candidate_match 1))
    with (candidates Sample.db !! 1%Z).
  destruct sample_lookups as (-> & _ & -> & _).
  destruct sample_skills as (-> & -> & _). exact sample_overlap_third.
Qed.

Lemma sample_skills_match_third :
  CandidateJobMatch._calculate_skills_match Sample.candidate1 Sample.job1
  = (1 / 3)%R.
Proof.
  rewrite skills_match_is_overlap.
  destruct sample_skills as (-> & -> & _). exact sample_overlap_third.
Qed.

Lemma sample_skill_only_run :
  JobCandidateMatch.calculate_score Sample.db Sample.now
    (Sample.job_candidate_match 1) None None
  = Return ((1 / 3)%R, Sample.job_candidate_match 1, Sample.db).
Proof.
  rewrite <- sample_skill_score_third. apply calculate_score_fallback.
  left. reflexivity.
Qed.

(** C2. When either embedding is absent, no weights are applied: both score
    computations return the skill-overlap score alone (and
    [calculate_match_score] stores it as the match score). A candidate with
    skills python, sql and a job with skills python, go, without embeddings,
    get the skill score 1/3 and the match score 1/3. *)
Theorem skill_only_fallback :
  (forall db now self je ce,
     Py.truthy_opt_list (JobCandidateMatch.resolve_job_embedding db self je) = false
     \/ Py.truthy_opt_list
          (JobCandidateMatch.resolve_candidate_embedding db self ce) = false ->
     JobCandidateMatch.calculate_score db now self je ce
     = Return (JobCandidateMatch._calculate_skill_match_score db self, self, db))
  /\ (forall db now self candidate job c j,
        CandidateJobMatch.or_query candidate (candidates db)
          (CandidateJobMatch.candidate_id self) = Some c ->
        CandidateJobMatch.or_query job (jobs db)
          (CandidateJobMatch.job_id self) = Some j ->
        Py.truthy_opt_list (Candidate.embedding c) = false
        \/ Py.truthy_opt_list (Job.embedding j) = false ->
        exists self',
          CandidateJobMatch.calculate_match_score db now self candidate job
          = Return (CandidateJobMatch._calculate_skills_match c j, self', db)
          /\ CandidateJobMatch.match_score self'
             = CandidateJobMatch._calculate_skills_match c j
          /\ CandidateJobMatch.skills_match_score self'
             = CandidateJobMatch._calculate_skills_match c j)
  /\ JobCandidateMatch._calculate_skill_match_score Sample.db
       (Sample.job_candidate_match 1) = (1 / 3)%R
  /\ JobCandidateMatch.calculate_score Sample.db Sample.now
       (Sample.job_candidate_match 1) None None
     = Return ((1 / 3)%R, Sample.job_candidate_match 1, Sample.db)
  /\ CandidateJobMatch._calculate_skills_match Sample.candidate1 Sample.job1
     = (1 / 3)%R
  /\ (exists self',
        CandidateJobMatch.calculate_match_score Sample.db Sample.now
          (Sample.candidate_job_match 1) None None
        = Return ((1 / 3)%R, self', Sample.db)
        /\ CandidateJobMatch.match_score self' = (1 / 3)%R
        /\ CandidateJobMatch.skills_match_score self' = (1 / 3)%R).
Proof.
  pose proof sample_skill_score_third as Hskill1.
  pose proof sample_skills_match_third as Hskill2.
  split; [| split; [| split; [| split; [| split]]]].
  - intros db now self je ce H. apply calculate_score_fallback, H.
  - intros db now self candidate job c j Hc Hj H.
    eexists. split.
    + apply (calculate_match_score_fallback db now self candidate job c j Hc Hj H).
    + split; reflexivity.
  - exact Hskill1.
  - rewrite <- Hskill1. apply calculate_score_fallback. left. reflexivity.
  - exact Hskill2.
  - eexists. rewrite <- Hskill2. split.
    + apply (calculate_match_score_fallback Sample.db Sample.now
               (Sample.candidate_job_match 1) None None
               Sample.candidate1 Sample.job1 eq_refl eq_refl).
      left. reflexivity.
    + split; reflexivity.
Qed.

Lemma skill_only_fallback_witness :
  JobCandidateMatch.calculate_score Sample.db Sample.now
    (Sample.job_candidate_match 1) None (Some [1%R])
  = Return (JobCandidateMatch._calculate_skill_match_score Sample.db
              (Sample.job_candidate_match 1),
            Sample.job_candidate_match 1, Sample.db).
Proof.
  apply (proj1 skill_only_fallback Sample.db Sample.now
           (Sample.job_candidate_match 1) None (Some [1%R])).
  left. reflexivity.
Defined.
(** ** Similarity: bounds and shape errors *)

Lemma clamp_range (similarity : PrimFloat.float) :
  let r := Binary64.max PrimFloat.zero (Binary64.min PrimFloat.one similarity) in
  r = PrimFloat.zero \/ r = PrimFloat.one
  \/ (r = similarity /\ PrimFloat.ltb PrimFloat.zero r = true
      /\ PrimFloat.ltb r PrimFloat.one = true).
Proof.
  cbv zeta. unfold Binary64.max, Binary64.min.
  destruct (PrimFloat.ltb similarity PrimFloat.one) eqn:Hone.
  - destruct (PrimFloat.ltb PrimFloat.zero similarity) eqn:Hzero.
    + right. right. split; [reflexivity | split; [exact Hzero | exact Hone]].
    + left. reflexivity.
  - right. left.
    change (PrimFloat.ltb PrimFloat.zero PrimFloat.one) with true. reflexivity.
Qed.

Lemma binary64_embedding_match_range (a b : list PrimFloat.float) :
  length a = length b ->
  exists r,
    Binary64._calculate_embedding_match a b = Return r
    /\ (r = PrimFloat.zero \/ r = PrimFloat.one
        \/ (PrimFloat.ltb PrimFloat.zero r = true
            /\ PrimFloat.ltb r PrimFloat.one = true)).
Proof.
  intros Hlen. unfold Binary64._calculate_embedding_match, Binary64.dot.
  destruct (decide (length a = length b)) as [_ | Hne]; [| contradiction].
  simpl.
  destruct (PrimFloat.eqb (Binary64.norm a) _);
    [eexists; split; [reflexivity | left; reflexivity] |].
  destruct (PrimFloat.eqb (Binary64.norm b) _);
    [eexists; split; [reflexivity | left; reflexivity] |].
  eexists. split; [reflexivity |].
  destruct (clamp_range (PrimFloat.div (Binary64.sum_products a b)
              (PrimFloat.mul (Binary64.norm a) (Binary64.norm b))))
    as [H | [H | (_ & H0 & H1)]]; auto.
Qed.

Lemma binary64_cosine_similarity_is_embedding_match (x y : PrimFloat.float)
    (a b : list PrimFloat.float) :
  Binary64._cosine_similarity (Some (x :: a)) (Some (y :: b))
  = Binary64._calculate_embedding_match (x :: a) (y :: b).
Proof. reflexivity. Qed.

(** C9. The code breaks the claim at an overflow. The opposite vectors
    [(1e200, 0)] and [(-1e200, 0)] have cosine -1, but on binary64 their dot
    product is minus infinity and the product of their norms is infinity, the
    quotient is NaN, [min(1.0, NaN)] keeps 1.0, and both implementations
    return 1.0 where the claim has 0. The rest of the claim holds on
    binary64: the opposite vectors [(1, 0)] and [(-1, 0)] give 0; for
    vectors of one length both implementations return, without raising,
    0.0, 1.0 or a value strictly between them; an absent or empty vector
    gives 0.0. *)
Theorem opposite_huge_vectors_score_one :
  Binary64.dot Binary64.huge_x Binary64.huge_minus_x = Return PrimFloat.neg_infinity
  /\ PrimFloat.mul (Binary64.norm Binary64.huge_x) (Binary64.norm Binary64.huge_minus_x)
     = PrimFloat.infinity
  /\ PrimFloat.is_nan (PrimFloat.div PrimFloat.neg_infinity PrimFloat.infinity) = true
  /\ Binary64._cosine_similarity (Some Binary64.huge_x) (Some Binary64.huge_minus_x)
     = Return PrimFloat.one
  /\ Binary64._calculate_embedding_match Binary64.huge_x Binary64.huge_minus_x
     = Return PrimFloat.one
  /\ Binary64._cosine_similarity (Some Binary64.unit_x) (Some Binary64.unit_minus_x)
     = Return PrimFloat.zero
  /\ Binary64._calculate_embedding_match Binary64.unit_x Binary64.unit_minus_x
     = Return PrimFloat.zero
  /\ (forall a b, length a = length b ->
        exists r,
          Binary64._calculate_embedding_match a b = Return r
          /\ (r = PrimFloat.zero \/ r = PrimFloat.one
              \/ (PrimFloat.ltb PrimFloat.zero r = true
                  /\ PrimFloat.ltb r PrimFloat.one = true)))
  /\ (forall a b, length a = length b ->
        exists r,
          Binary64._cosine_similarity (Some a) (Some b) = Return r
          /\ (r = PrimFloat.zero \/ r = PrimFloat.one
              \/ (PrimFloat.ltb PrimFloat.zero r = true
                  /\ PrimFloat.ltb r PrimFloat.one = true)))
  /\ (forall v, Binary64._cosine_similarity None v = Return PrimFloat.zero
                /\ Binary64._cosine_similarity v None = Return PrimFloat.zero
                /\ Binary64._cosine_similarity (Some []) v = Return PrimFloat.zero
                /\ Binary64._cosine_similarity v (Some []) = Return PrimFloat.zero).
Proof.
  split; [vm_compute; reflexivity |].
  split; [vm_compute; reflexivity |].
  split; [vm_compute; reflexivity |].
  split; [vm_compute; reflexivity |].
  split; [vm_compute; reflexivity |].
  split; [vm_compute; reflexivity |].
  split; [vm_compute; reflexivity |].
  split; [exact binary64_embedding_match_range |].
  split.
  - intros [| x a] [| y b] Hlen; try discriminate Hlen.
    + exists PrimFloat.zero. split; [reflexivity | left; reflexivity].
    + rewrite binary64_cosine_similarity_is_embedding_match.
      apply binary64_embedding_match_range, Hlen.
  - intros v. split; [reflexivity |].
    split; [destruct v as [[| x a] |]; reflexivity |].
    split; [reflexivity |].
    destruct v as [[| x a] |]; reflexivity.
Qed.

Lemma opposite_huge_vectors_score_one_witness :
  exists r,
    Binary64._calculate_embedding_match Binary64.diagonal Binary64.diagonal
    = Return r
    /\ (r = PrimFloat.zero \/ r = PrimFloat.one
        \/ (PrimFloat.ltb PrimFloat.zero r = true
            /\ PrimFloat.ltb r PrimFloat.one = true)).
Proof.
  destruct opposite_huge_vectors_score_one
    as (_ & _ & _ & _ & _ & _ & _ & Hrange & _).
  apply (Hrange Binary64.diagonal Binary64.diagonal). reflexivity.
Defined.

(** The claim C7 as the specification words it fails on the code: with an
    empty first vector [_cosine_similarity] returns 0.0 whatever the length of
    the second. *)
Lemma unequal_lengths_empty_vector_returns :
  JobCandidateMatch._cosine_similarity (Some []) (Some [1%R]) = Return 0%R
  /\ ~ unequal_lengths_always_raise.
Proof.
  split; [reflexivity |].
  intros Hclaim.
  destruct (Hclaim [] [1%R]) as [[e He] _]; [simpl; lia |].
  discriminate He.
Qed.

(** C7 (amended). Two non-empty embedding vectors of unequal length make the
    similarity fail with the shape error of [np.dot]: no score is returned,
    and the error goes unchanged through [calculate_score] and
    [calculate_match_score]. [_calculate_embedding_match] fails in the same
    way when one vector is empty; [_cosine_similarity] returns 0.0 then. *)
Theorem unequal_lengths_raise_unless_empty :
  forall a b : list R, length a <> length b ->
    let e := ValueError_shapes_not_aligned (length a) (length b) in
    CandidateJobMatch._calculate_embedding_match a b = Raise e
    /\ (a <> [] -> b <> [] ->
        JobCandidateMatch._cosine_similarity (Some a) (Some b) = Raise e)
    /\ (a = [] \/ b = [] ->
        JobCandidateMatch._cosine_similarity (Some a) (Some b) = Return 0%R)
    /\ (forall db now self je ce,
          a <> [] -> b <> [] ->
          JobCandidateMatch.resolve_job_embedding db self je = Some a ->
          JobCandidateMatch.resolve_candidate_embedding db self ce = Some b ->
          JobCandidateMatch.calculate_score db now self je ce = Raise e)
    /\ (forall db now self candidate job c j,
          a <> [] -> b <> [] ->
          CandidateJobMatch.or_query candidate (candidates db)
            (CandidateJobMatch.candidate_id self) = Some c ->
          CandidateJobMatch.or_query job (jobs db)
            (CandidateJobMatch.job_id self) = Some j ->
          Candidate.embedding c = Some a -> Job.embedding j = Some b ->
          CandidateJobMatch.calculate_match_score db now self candidate job
          = Raise e).
Proof.
  intros a b Hlen e.
  pose proof (embedding_match_not_aligned a b Hlen) as Hraise. fold e in Hraise.
  assert (Hcos : a <> [] -> b <> [] ->
                 JobCandidateMatch._cosine_similarity (Some a) (Some b) = Raise e).
  { intros Ha Hb. destruct a as [| x a]; [contradiction |].
    destruct b as [| y b]; [contradiction |].
    rewrite cosine_similarity_is_embedding_match. exact Hraise. }
  split; [exact Hraise | split; [exact Hcos | split; [| split]]].
  - intros H. apply cosine_similarity_falsy.
    destruct H as [-> | ->]; [left | right]; reflexivity.
  - intros db now self je ce Ha Hb Hje Hce.
    apply calculate_score_raises; rewrite ?Hje, ?Hce.
    + destruct a; [contradiction | reflexivity].
    + destruct b; [contradiction | reflexivity].
    + apply Hcos; assumption.
  - intros db now self candidate job c j Ha Hb Hc Hj Hea Heb.
    apply (calculate_match_score_raises db now self candidate job c j Hc Hj a b e);
      assumption.
Qed.

Lemma unequal_lengths_raise_unless_empty_witness :
  CandidateJobMatch._calculate_embedding_match [1; 2]%R [1; 2; 3]%R
  = Raise (ValueError_shapes_not_aligned 2 3)
  /\ JobCandidateMatch._cosine_similarity (Some [1; 2]%R) (Some [1; 2; 3]%R)
     = Raise (ValueError_shapes_not_aligned 2 3).
Proof.
  assert (Hlen : length [1; 2]%R <> length [1; 2; 3]%R) by (simpl; lia).
  destruct (unequal_lengths_raise_unless_empty [1; 2]%R [1; 2; 3]%R Hlen)
    as (H1 & H2 & _).
  split; [exact H1 | apply H2; discriminate].
Defined.
(** ** Skill overlap against the specification *)

(** The claim C8 as the specification words it fails on the code: a candidate
    skill with a leading blank does not match the job skill of the same name,
    where trimming would make the overlap 1. *)
Lemma skill_overlap_untrimmed_name :
  CandidateJobMatch._calculate_skills_match candidate_blank_python job_python = 0%R
  /\ skill_overlap_fold_trim [" python"%string] ["python"%string] = 1%R
  /\ ~ skill_overlap_folds_and_trims.
Proof.
  assert (Hcode : CandidateJobMatch._calculate_skills_match
                    candidate_blank_python job_python = 0%R).
  { rewrite skills_match_is_overlap. apply jaccard_disjoint.
    apply (bool_decide_eq_true_1
             (lower_set (default [] (Candidate.skills_array candidate_blank_python))
                ∩ lower_set (Job.skills_array job_python) = ∅)).
    vm_compute. reflexivity. }
  assert (Hspec : skill_overlap_fold_trim [" python"%string] ["python"%string] = 1%R).
  { unfold skill_overlap_fold_trim.
    rewrite (jaccard_of_sizes _ _ 1 1).
    - simpl. lra.
    - apply (list_to_set_cons_nonempty (normalize_fold_trim " python") []).
    - apply (list_to_set_cons_nonempty (normalize_fold_trim "python") []).
    - vm_compute. reflexivity.
    - vm_compute. reflexivity. }
  split; [exact Hcode | split; [exact Hspec |]].
  intros Hclaim. specialize (Hclaim candidate_blank_python job_python).
  rewrite Hcode in Hclaim.
  change (default [] (Candidate.skills_array candidate_blank_python))
    with [" python"%string] in Hclaim.
  change (Job.skills_array job_python) with ["python"%string] in Hclaim.
  rewrite Hspec in Hclaim. lra.
Qed.

(** C8 (amended). In both implementations the skill-overlap score is the
    Jaccard similarity |intersection| / |union| of the two skill sets after
    lower-casing each name, without trimming; it is 0 when either skill list
    is empty. *)
Theorem skill_overlap_is_jaccard_of_lowered :
  forall (candidate : Candidate.t) (job : Job.t),
    let A := default [] (Candidate.skills_array candidate) in
    let B := Job.skills_array job in
    CandidateJobMatch._calculate_skills_match candidate job = skill_overlap_lower A B
    /\ (forall db self,
          jobs db !! JobCandidateMatch.job_id self = Some job ->
          candidates db !! JobCandidateMatch.candidate_id self = Some candidate ->
          JobCandidateMatch._calculate_skill_match_score db self
          = skill_overlap_lower A B)
    /\ (A = [] \/ B = [] -> skill_overlap_lower A B = 0%R)
    /\ (A <> [] -> B <> [] ->
        skill_overlap_lower A B
        = (INR (size (lower_set A ∩ lower_set B))
           / INR (size (lower_set A ∪ lower_set B)))%R).
Proof.
  intros candidate job A B. split; [apply skills_match_is_overlap | split; [| split]].
  - intros db self Hj Hc. rewrite skill_match_score_is_overlap, Hj, Hc. reflexivity.
  - intros H. unfold skill_overlap_lower, jaccard.
    rewrite decide_True; [reflexivity |].
    destruct H as [-> | ->]; [left | right]; apply lower_set_nil.
  - intros HA HB. unfold skill_overlap_lower, jaccard.
    rewrite decide_False; [reflexivity |].
    destruct A as [| x A']; [contradiction |].
    destruct B as [| y B']; [contradiction |].
    intros [H | H]; eapply lower_set_cons_nonempty; exact H.
Qed.

Lemma skill_overlap_is_jaccard_of_lowered_witness :
  JobCandidateMatch._calculate_skill_match_score Sample.db
    (Sample.job_candidate_match 1)
  = skill_overlap_lower ["python"; "sql"]%string ["python"; "go"]%string.
Proof.
  destruct (skill_overlap_is_jaccard_of_lowered Sample.candidate1 Sample.job1)
    as (_ & H & _).
  apply (H Sample.db (Sample.job_candidate_match 1)); reflexivity.
Defined.

(** ** Missing candidate or job *)

Lemma skill_match_score_missing (db : Session) (self : JobCandidateMatch.t) :
  jobs db !! JobCandidateMatch.job_id self = None
  \/ candidates db !! JobCandidateMatch.candidate_id self = None ->
  JobCandidateMatch._calculate_skill_match_score db self = 0%R.
Proof.
  intros H. unfold JobCandidateMatch._calculate_skill_match_score.
  destruct H as [-> | ->]; [reflexivity |].
  destruct (jobs db !! _); reflexivity.
Qed.

Lemma sample_unit_similarity :
  JobCandidateMatch._cosine_similarity (Some [1; 0]%R) (Some [1; 0]%R) = Return 1%R.
Proof.
  rewrite cosine_similarity_is_embedding_match.
  apply embedding_match_self. rewrite norm_unit. lra.
Qed.

(** The claim C10 as worded fails on the code: for a match whose job and
    candidate are both missing, [calculate_score] called with two embeddings
    returns 0.6 times their similarity, here 0.6. *)
Lemma missing_entity_with_supplied_embeddings :
  (exists self',
     JobCandidateMatch.calculate_score Sample.db Sample.now
       (Sample.job_candidate_match 3) (Some [1; 0]%R) (Some [1; 0]%R)
     = Return (0.6%R, self', Sample.db))
  /\ ~ missing_entity_scores_zero.
Proof.
  assert (Hmiss : jobs Sample.db
                    !! JobCandidateMatch.job_id (Sample.job_candidate_match 3) = None)
    by reflexivity.
  pose proof (calculate_score_full Sample.db Sample.now (Sample.job_candidate_match 3)
                (Some [1; 0]%R) (Some [1; 0]%R) 1%R eq_refl eq_refl
                sample_unit_similarity) as Hrun.
  rewrite (skill_match_score_missing _ _ (or_introl Hmiss)) in Hrun.
  replace (1 * 0.6 + 0 * 0.4)%R with 0.6%R in Hrun by lra.
  split; [eexists; exact Hrun |].
  intros Hclaim.
  destruct (Hclaim Sample.db Sample.now (Sample.job_candidate_match 3)
              (Some [1; 0]%R) (Some [1; 0]%R) (or_introl Hmiss)) as [self' Hzero].
  rewrite Hrun in Hzero. injection Hzero as Hval _. lra.
Qed.

(** C10 (amended). When the referenced candidate or job does not exist,
    [calculate_match_score] and [_calculate_skill_match_score] return 0.0 and
    raise nothing, and so does [calculate_score] on its skill-only path, which
    it takes whenever the embedding of a missing row is not supplied by the
    caller; with both embeddings available it returns 0.6 times their
    similarity. *)
Theorem missing_entity_zero_on_skill_path :
  (forall db now self candidate job,
     CandidateJobMatch.or_query candidate (candidates db)
       (CandidateJobMatch.candidate_id self) = None
     \/ CandidateJobMatch.or_query job (jobs db)
          (CandidateJobMatch.job_id self) = None ->
     CandidateJobMatch.calculate_match_score db now self candidate job
     = Return (0%R, self, db))
  /\ (forall db self,
        jobs db !! JobCandidateMatch.job_id self = None
        \/ candidates db !! JobCandidateMatch.candidate_id self = None ->
        JobCandidateMatch._calculate_skill_match_score db self = 0%R)
  /\ (forall db now self je ce,
        jobs db !! JobCandidateMatch.job_id self = None
        \/ candidates db !! JobCandidateMatch.candidate_id self = None ->
        Py.truthy_opt_list (JobCandidateMatch.resolve_job_embedding db self je) = false
        \/ Py.truthy_opt_list
             (JobCandidateMatch.resolve_candidate_embedding db self ce) = false ->
        JobCandidateMatch.calculate_score db now self je ce = Return (0%R, self, db))
  /\ (forall db now self je ce,
        (jobs db !! JobCandidateMatch.job_id self = None
         /\ Py.truthy_opt_list je = false)
        \/ (candidates db !! JobCandidateMatch.candidate_id self = None
            /\ Py.truthy_opt_list ce = false) ->
        JobCandidateMatch.calculate_score db now self je ce = Return (0%R, self, db))
  /\ (forall db now self je ce sim,
        jobs db !! JobCandidateMatch.job_id self = None
        \/ candidates db !! JobCandidateMatch.candidate_id self = None ->
        Py.truthy_opt_list (JobCandidateMatch.resolve_job_embedding db self je) = true ->
        Py.truthy_opt_list
          (JobCandidateMatch.resolve_candidate_embedding db self ce) = true ->
        JobCandidateMatch._cosine_similarity
          (JobCandidateMatch.resolve_job_embedding db self je)
          (JobCandidateMatch.resolve_candidate_embedding db self ce) = Return sim ->
        exists self',
          JobCandidateMatch.calculate_score db now self je ce
          = Return ((0.6 * sim)%R, self', db)).
Proof.
  assert (Hskill_path : forall db now self je ce,
    jobs db !! JobCandidateMatch.job_id self = None
    \/ candidates db !! JobCandidateMatch.candidate_id self = None ->
    Py.truthy_opt_list (JobCandidateMatch.resolve_job_embedding db self je) = false
    \/ Py.truthy_opt_list
         (JobCandidateMatch.resolve_candidate_embedding db self ce) = false ->
    JobCandidateMatch.calculate_score db now self je ce = Return (0%R, self, db)).
  { intros db now self je ce Hmiss Hpath.
    rewrite (calculate_score_fallback db now self je ce Hpath).
    rewrite (skill_match_score_missing db self Hmiss). reflexivity. }
  split; [exact calculate_match_score_missing | split; [exact skill_match_score_missing |]].
  split; [exact Hskill_path | split].
  - intros db now self je ce [[Hj Hje] | [Hc Hce]].
    + apply Hskill_path; [left; exact Hj | left].
      unfold JobCandidateMatch.resolve_job_embedding. rewrite Hje, Hj. reflexivity.
    + apply Hskill_path; [right; exact Hc | right].
      unfold JobCandidateMatch.resolve_candidate_embedding. rewrite Hce, Hc. reflexivity.
  - intros db now self je ce sim Hmiss Hje Hce Hsim.
    eexists.
    rewrite (calculate_score_full db now self je ce sim Hje Hce Hsim).
    rewrite (skill_match_score_missing db self Hmiss).
    replace (sim * 0.6 + 0 * 0.4)%R with (0.6 * sim)%R by lra. reflexivity.
Qed.

Lemma missing_entity_zero_on_skill_path_witness :
  CandidateJobMatch.calculate_match_score Sample.db Sample.now
    (Sample.candidate_job_match 3) None None
  = Return (0%R, Sample.candidate_job_match 3, Sample.db)
  /\ JobCandidateMatch.calculate_score Sample.db Sample.now
       (Sample.job_candidate_match 3) None (Some [1; 0]%R)
     = Return (0%R, Sample.job_candidate_match 3, Sample.db).
Proof.
  destruct missing_entity_zero_on_skill_path as (H1 & _ & _ & H4 & _).
  split.
  - apply H1. left. reflexivity.
  - apply H4. left. split; reflexivity.
Defined.
(** ** The recorded payload *)

Lemma score_payload_lookups (now : string) (s k t : R)
    (previous : option (gmap string JSON)) :
  let d := score_payload now s k t previous in
  d !! "embedding_similarity"%string = Some (JNum s)
  /\ d !! "skill_match_score"%string = Some (JNum k)
  /\ d !! "total_score"%string = Some (JNum t)
  /\ d !! "last_calculated_at"%string = Some (JStr now)
  /\ (forall key : string,
        key <> "embedding_similarity"%string -> key <> "skill_match_score"%string ->
        key <> "total_score"%string -> key <> "last_calculated_at"%string ->
        d !! key = default ∅ previous !! key).
Proof.
  unfold score_payload. repeat split.
  - rewrite !lookup_insert_ne by discriminate. apply lookup_insert_eq.
  - rewrite !lookup_insert_ne by discriminate. apply lookup_insert_eq.
  - rewrite lookup_insert_ne by discriminate. apply lookup_insert_eq.
  - apply lookup_insert_eq.
  - intros key H1 H2 H3 H4. rewrite !lookup_insert_ne by congruence. reflexivity.
Qed.

Lemma match_score_payload_lookups (now : string) (k s t : R) :
  let d := match_score_payload now k s t in
  d !! "skills_match_score"%string = Some (JNum k)
  /\ d !! "embedding_match_score"%string = Some (JNum s)
  /\ d !! "total_score"%string = Some (JNum t)
  /\ d !! "calculation_timestamp"%string = Some (JStr now)
  /\ dom d = match_score_payload_keys.
Proof.
  unfold match_score_payload, match_score_payload_keys. cbv zeta.
  split; [rewrite !lookup_insert_ne by discriminate; apply lookup_insert_eq |].
  split; [rewrite !lookup_insert_ne by discriminate; apply lookup_insert_eq |].
  split; [rewrite lookup_insert_ne by discriminate; apply lookup_insert_eq |].
  split; [apply lookup_insert_eq |].
  rewrite !dom_insert_L, dom_empty_L. set_solver.
Qed.

(** The claim C6 as worded fails on the code: on the skill-only path neither
    computation records anything, and [match_data] stays unset. *)
Lemma skill_only_path_records_nothing :
  JobCandidateMatch.calculate_score Sample.db Sample.now
    (Sample.job_candidate_match 1) None None
  = Return ((1 / 3)%R, Sample.job_candidate_match 1, Sample.db)
  /\ JobCandidateMatch.match_data (Sample.job_candidate_match 1) = None
  /\ ~ score_detail_always_recorded.
Proof.
  assert (Hrun : JobCandidateMatch.calculate_score Sample.db Sample.now
                   (Sample.job_candidate_match 1) None None
                 = Return ((1 / 3)%R, Sample.job_candidate_match 1, Sample.db)).
  { exact sample_skill_only_run. }
  split; [exact Hrun | split; [reflexivity |]].
  intros [Hclaim _].
  destruct (Hclaim _ _ _ _ _ _ _ _ Hrun) as (d & Hd & _). discriminate Hd.
Qed.

(** C6 (amended). On the full-combination path each score computation records
    a payload with the component scores, the total and the time of the
    computation: [calculate_score] merges the embedding similarity, the skill
    score weighted by 0.4, the total and ["last_calculated_at"] into
    [match_data]; [calculate_match_score] replaces [match_data] by exactly the
    four keys skills score, embedding score, total and
    ["calculation_timestamp"]. No key names the path taken, and on the
    skill-only path [match_data] is left as it was. *)
Theorem score_detail_on_full_path_only :
  (forall db now self je ce a b,
     JobCandidateMatch.resolve_job_embedding db self je = Some a ->
     JobCandidateMatch.resolve_candidate_embedding db self ce = Some b ->
     a <> [] -> b <> [] -> length a = length b ->
     exists sim v self' d,
       JobCandidateMatch._cosine_similarity (Some a) (Some b) = Return sim
       /\ JobCandidateMatch.calculate_score db now self je ce = Return (v, self', db)
       /\ JobCandidateMatch.match_data self' = Some d
       /\ d !! "embedding_similarity"%string = Some (JNum sim)
       /\ d !! "skill_match_score"%string
          = Some (JNum (JobCandidateMatch._calculate_skill_match_score db self * 0.4))
       /\ d !! "total_score"%string = Some (JNum v)
       /\ d !! "last_calculated_at"%string = Some (JStr now)
       /\ (forall key : string,
             key <> "embedding_similarity"%string ->
             key <> "skill_match_score"%string ->
             key <> "total_score"%string -> key <> "last_calculated_at"%string ->
             d !! key = default ∅ (JobCandidateMatch.match_data self) !! key))
  /\ (forall db now self candidate job c j a b,
        CandidateJobMatch.or_query candidate (candidates db)
          (CandidateJobMatch.candidate_id self) = Some c ->
        CandidateJobMatch.or_query job (jobs db)
          (CandidateJobMatch.job_id self) = Some j ->
        Candidate.embedding c = Some a -> Job.embedding j = Some b ->
        a <> [] -> b <> [] -> length a = length b ->
        exists sim v self' d,
          CandidateJobMatch._calculate_embedding_match a b = Return sim
          /\ CandidateJobMatch.calculate_match_score db now self candidate job
             = Return (v, self', db)
          /\ CandidateJobMatch.match_data self' = Some d
          /\ d !! "skills_match_score"%string
             = Some (JNum (CandidateJobMatch._calculate_skills_match c j))
          /\ d !! "embedding_match_score"%string = Some (JNum sim)
          /\ d !! "total_score"%string = Some (JNum v)
          /\ d !! "calculation_timestamp"%string = Some (JStr now)
          /\ dom d = match_score_payload_keys)
  /\ (forall db now self je ce,
        Py.truthy_opt_list (JobCandidateMatch.resolve_job_embedding db self je) = false
        \/ Py.truthy_opt_list
             (JobCandidateMatch.resolve_candidate_embedding db self ce) = false ->
        exists v self',
          JobCandidateMatch.calculate_score db now self je ce = Return (v, self', db)
          /\ JobCandidateMatch.match_data self' = JobCandidateMatch.match_data self)
  /\ (forall db now self candidate job c j,
        CandidateJobMatch.or_query candidate (candidates db)
          (CandidateJobMatch.candidate_id self) = Some c ->
        CandidateJobMatch.or_query job (jobs db)
          (CandidateJobMatch.job_id self) = Some j ->
        Py.truthy_opt_list (Candidate.embedding c) = false
        \/ Py.truthy_opt_list (Job.embedding j) = false ->
        exists v self',
          CandidateJobMatch.calculate_match_score db now self candidate job
          = Return (v, self', db)
          /\ CandidateJobMatch.match_data self' = CandidateJobMatch.match_data self).
Proof.
  split; [| split; [| split]].
  - intros db now self je ce a b Hje Hce Ha Hb Hlen.
    destruct a as [| x a]; [contradiction |].
    destruct b as [| y b]; [contradiction |].
    destruct (embedding_match_aligned (x :: a) (y :: b) Hlen) as (sim & Hsim & _).
    rewrite <- cosine_similarity_is_embedding_match in Hsim.
    exists sim. do 3 eexists. split; [exact Hsim |]. split.
    { apply (calculate_score_full db now self je ce sim);
        rewrite ?Hje, ?Hce; try reflexivity; exact Hsim. }
    split; [reflexivity |]. apply score_payload_lookups.
  - intros db now self candidate job c j a b Hc Hj Hea Heb Ha Hb Hlen.
    destruct (embedding_match_aligned a b Hlen) as (sim & Hsim & _).
    exists sim. do 3 eexists. split; [exact Hsim |]. split.
    { apply (calculate_match_score_full db now self candidate job c j Hc Hj a b sim);
        assumption. }
    split; [reflexivity |]. apply match_score_payload_lookups.
  - intros db now self je ce H. do 2 eexists. split.
    + apply (calculate_score_fallback db now self je ce H).
    + reflexivity.
  - intros db now self candidate job c j Hc Hj H. do 2 eexists. split.
    + apply (calculate_match_score_fallback db now self candidate job c j Hc Hj H).
    + reflexivity.
Qed.

Lemma score_detail_on_full_path_only_witness :
  exists sim v self' d,
    JobCandidateMatch._cosine_similarity (Some [1; 0]%R) (Some [1; 0]%R) = Return sim
    /\ JobCandidateMatch.calculate_score Sample.db Sample.now
         (Sample.job_candidate_match 2) None None = Return (v, self', Sample.db)
    /\ JobCandidateMatch.match_data self' = Some d
    /\ d !! "last_calculated_at"%string = Some (JStr Sample.now).
Proof.
  assert (Hne : [1; 0]%R <> @nil R) by discriminate.
  destruct (proj1 score_detail_on_full_path_only Sample.db Sample.now
              (Sample.job_candidate_match 2) None None [1; 0]%R [1; 0]%R
              eq_refl eq_refl Hne Hne eq_refl)
    as (sim & v & self' & d & H1 & H2 & H3 & _ & _ & _ & H4 & _).
  exists sim, v, self', d. repeat split; assumption.
Defined.

(** ** History *)

Lemma sample_full_run :
  JobCandidateMatch.calculate_score Sample.db Sample.now
    (Sample.job_candidate_match 2) None None
  = Return (0.6%R,
            {| JobCandidateMatch.id := 2; JobCandidateMatch.job_id := 2;
               JobCandidateMatch.candidate_id := 2;
               JobCandidateMatch.score := 0.6%R;
               JobCandidateMatch.match_data :=
                 Some (score_payload Sample.now 1 0 0.6 None);
               JobCandidateMatch.status := "new"%string;
               JobCandidateMatch.user_id := None |},
            Sample.db).
Proof.
  pose proof (calculate_score_full Sample.db Sample.now (Sample.job_candidate_match 2)
                None None 1%R eq_refl eq_refl sample_unit_similarity) as Hrun.
  assert (Hskill : JobCandidateMatch._calculate_skill_match_score Sample.db
                     (Sample.job_candidate_match 2) = 0%R).
  { rewrite skill_match_score_is_overlap.
    change (jobs Sample.db !! JobCandidateMatch.job_id (Sample.job_candidate_match 2))
      with (jobs Sample.db !! 2%Z).
    change (candidates Sample.db
              !! JobCandidateMatch.candidate_id (Sample.job_candidate_match 2))
      with (candidates Sample.db !! 2%Z).
    destruct sample_lookups as (_ & -> & _ & ->).
    destruct sample_skills as (_ & _ & -> & ->).
    apply jaccard_disjoint, sample_overlap_disjoint. }
  rewrite Hskill in Hrun.
  replace (1 * 0.6 + 0 * 0.4)%R with 0.6%R in Hrun by lra.
  replace (0 * 0.4)%R with 0%R in Hrun by lra.
  exact Hrun.
Qed.

(** The claim C4 as worded fails on the code: [calculate_score] moves the
    score of a match from 0 to 0.6 and the history table stays empty. *)
Lemma score_changes_without_history :
  (exists self',
     JobCandidateMatch.calculate_score Sample.db Sample.now
       (Sample.job_candidate_match 2) None None
     = Return (0.6%R, self', Sample.db)
     /\ JobCandidateMatch.score self' = 0.6%R
     /\ JobCandidateMatch.score (Sample.job_candidate_match 2) = 0%R
     /\ match_history Sample.db = [])
  /\ ~ score_change_writes_history.
Proof.
  split.
  - eexists. split; [exact sample_full_run |]. repeat split.
  - intros Hclaim.
    destruct (Hclaim _ _ _ _ _ _ _ _ sample_full_run) as (e & He & _).
    + simpl. lra.
    + unfold Sample.db in He. simpl in He. discriminate He.
Qed.

(** C4 (amended). The score computations change the score fields of a match
    without writing history: after [calculate_score] and after
    [calculate_match_score] the session, and with it the [match_history]
    table, is what it was before the call, and the status, the key and the
    matched pair of the record are unchanged. *)
Theorem score_computation_writes_no_history :
  (forall db now self je ce v self' db',
     JobCandidateMatch.calculate_score db now self je ce = Return (v, self', db') ->
     db' = db
     /\ match_history db' = match_history db
     /\ JobCandidateMatch.status self' = JobCandidateMatch.status self
     /\ JobCandidateMatch.id self' = JobCandidateMatch.id self
     /\ JobCandidateMatch.job_id self' = JobCandidateMatch.job_id self
     /\ JobCandidateMatch.candidate_id self' = JobCandidateMatch.candidate_id self
     /\ (JobCandidateMatch.score self' = JobCandidateMatch.score self
         \/ JobCandidateMatch.score self' = v))
  /\ (forall db now self candidate job v self' db',
        CandidateJobMatch.calculate_match_score db now self candidate job
        = Return (v, self', db') ->
        db' = db
        /\ match_history db' = match_history db
        /\ CandidateJobMatch.id self' = CandidateJobMatch.id self
        /\ CandidateJobMatch.job_id self' = CandidateJobMatch.job_id self
        /\ CandidateJobMatch.candidate_id self' = CandidateJobMatch.candidate_id self
        /\ (CandidateJobMatch.match_score self' = CandidateJobMatch.match_score self
            \/ CandidateJobMatch.match_score self' = v)).
Proof.
  split.
  - intros db now self je ce v self' db' Hrun.
    unfold JobCandidateMatch.calculate_score in Hrun.
    destruct (negb _ || negb _).
    + injection Hrun as <- <- <-. repeat split; auto.
    + destruct (JobCandidateMatch._cosine_similarity _ _) as [sim | e];
        simpl in Hrun; [| discriminate Hrun].
      injection Hrun as <- <- <-. repeat split; auto.
  - intros db now self candidate job v self' db' Hrun.
    unfold CandidateJobMatch.calculate_match_score in Hrun.
    destruct (CandidateJobMatch.or_query candidate _ _) as [c |];
      [| injection Hrun as <- <- <-; repeat split; auto].
    destruct (CandidateJobMatch.or_query job _ _) as [j |];
      [| injection Hrun as <- <- <-; repeat split; auto].
    destruct (Candidate.embedding c) as [[| x a] |];
      destruct (Job.embedding j) as [[| y b] |];
      try (injection Hrun as <- <- <-; repeat split; auto).
    destruct (CandidateJobMatch._calculate_embedding_match _ _) as [sim | e];
      simpl in Hrun; [| discriminate Hrun].
    injection Hrun as <- <- <-. repeat split; auto.
Qed.

Lemma score_computation_writes_no_history_witness :
  match_history Sample.db = match_history Sample.db
  /\ JobCandidateMatch.status
       {| JobCandidateMatch.id := 2; JobCandidateMatch.job_id := 2;
          JobCandidateMatch.candidate_id := 2;
          JobCandidateMatch.score := 0.6%R;
          JobCandidateMatch.match_data :=
            Some (score_payload Sample.now 1 0 0.6 None);
          JobCandidateMatch.status := "new"%string;
          JobCandidateMatch.user_id := None |}
     = JobCandidateMatch.status (Sample.job_candidate_match 2).
Proof.
  destruct (proj1 score_computation_writes_no_history _ _ _ _ _ _ _ _ sample_full_run)
    as (_ & H1 & H2 & _).
  split; [exact H1 | exact H2].
Defined.
(** ** Unique constraints *)

Section Projections.
Context {Row K : Type}.
Variable f : Row -> K.

Lemma no_dup_delete (rows : list Row) (i : nat) :
  NoDup (f <$> rows) -> NoDup (f <$> Table.delete rows i).
Proof.
  unfold Table.delete. intros Hnd.
  rewrite <- (take_drop i rows) in Hnd.
  rewrite fmap_app in *. apply NoDup_app in Hnd as (Ht & Hsep & Hd).
  apply NoDup_app. split; [exact Ht | split].
  - intros x Hx Hx'. apply (Hsep x Hx).
    rewrite <- (take_drop 1 (drop i rows)), drop_drop, fmap_app.
    apply elem_of_app. right. replace (i + 1) with (S i) by lia. exact Hx'.
  - rewrite <- (take_drop 1 (drop i rows)), drop_drop, fmap_app in Hd.
    apply NoDup_app in Hd as (_ & _ & Hd).
    replace (i + 1) with (S i) in Hd by lia. exact Hd.
Qed.

Lemma no_dup_append (rows : list Row) (r : Row) :
  NoDup (f <$> rows) -> f r ∉ (f <$> rows) -> NoDup (f <$> rows ++ [r]).
Proof.
  intros Hnd Hfresh. rewrite fmap_app. apply NoDup_app.
  split; [exact Hnd | split; [| apply NoDup_singleton]].
  intros x Hx Hx'. apply list_elem_of_singleton in Hx'. subst x. exact (Hfresh Hx).
Qed.

Lemma no_dup_replace (rows : list Row) (i : nat) (r : Row) :
  NoDup (f <$> rows) -> f r ∉ (f <$> Table.delete rows i) ->
  NoDup (f <$> <[i := r]> rows).
Proof.
  intros Hnd Hfresh.
  destruct (decide (i < length rows)) as [Hlt | Hge];
    [| rewrite list_insert_ge by lia; exact Hnd].
  pose proof (no_dup_delete rows i Hnd) as Hdel.
  unfold Table.delete in *.
  rewrite insert_take_drop by exact Hlt.
  rewrite fmap_app in *. rewrite fmap_cons.
  apply NoDup_app in Hdel as (Ht & Hsep & Hd).
  apply NoDup_app. split; [exact Ht | split].
  - intros x Hx Hx'. apply elem_of_cons in Hx' as [-> | Hx'].
    + apply Hfresh. apply elem_of_app. left. exact Hx.
    + exact (Hsep x Hx Hx').
  - apply NoDup_cons. split; [| exact Hd].
    intros Hin. apply Hfresh. apply elem_of_app. right. exact Hin.
Qed.

Lemma same_projection_fresh (rows : list Row) (i : nat) (r0 r : Row) :
  NoDup (f <$> rows) -> rows !! i = Some r0 -> f r = f r0 ->
  f r ∉ (f <$> Table.delete rows i).
Proof.
  unfold Table.delete. intros Hnd Hi Hkey.
  rewrite <- (take_drop_middle rows i r0 Hi) in Hnd.
  rewrite fmap_app, fmap_cons in Hnd.
  apply NoDup_app in Hnd as (_ & Hsep & Hd).
  apply NoDup_cons in Hd as [Hd _].
  rewrite fmap_app, Hkey. intros Hin. apply elem_of_app in Hin as [Hin | Hin].
  - apply (Hsep _ Hin). left.
  - exact (Hd Hin).
Qed.

End Projections.

Section TableInvariant.
Context {Row : Type}.
Variable table : Table.Declaration Row.

Lemma existsb_same (K : Type) `{EqDecision K} (f : Row -> K) (rows : list Row)
    (r : Row) :
  existsb (fun r' => bool_decide (f r = f r')) rows = true <-> f r ∈ (f <$> rows).
Proof.
  rewrite existsb_exists, list_elem_of_fmap. split.
  - intros (r' & Hr' & Hsame). exists r'.
    split; [exact (bool_decide_eq_true_1 _ Hsame) | apply list_elem_of_In, Hr'].
  - intros (r' & Heq & Hr'). exists r'.
    split; [apply list_elem_of_In, Hr' | apply bool_decide_eq_true_2, Heq].
Qed.

(** A row conflicts with the stored ones exactly when it repeats a stored
    primary key or a stored value of a constrained pair. *)
Lemma conflicts_spec (rows : list Row) (r : Row) :
  Table.conflicts table rows r = false
  <-> (Table.primary_key table r ∉ (Table.primary_key table <$> rows))
      /\ forall key, key ∈ Table.table_args table -> key r ∉ (key <$> rows).
Proof.
  unfold Table.conflicts. rewrite orb_false_iff. split.
  - intros [Hid Hkeys]. split.
    + intros Hin. apply (existsb_same Z) in Hin.
      unfold Table.same_id in Hid. congruence.
    + intros key Hkey Hin. apply (existsb_same (Z * Z)) in Hin.
      assert (Htrue : existsb (fun key => existsb (Table.same_key key r) rows)
                        (Table.table_args table) = true); [| congruence].
      apply existsb_exists. exists key.
      split; [apply list_elem_of_In, Hkey | exact Hin].
  - intros [Hid Hkeys]. split.
    + destruct (existsb (Table.same_id table r) rows) eqn:Hex; [| reflexivity].
      exfalso. apply Hid. apply (existsb_same Z). exact Hex.
    + destruct (existsb _ (Table.table_args table)) eqn:Hex; [| reflexivity].
      exfalso. apply existsb_exists in Hex as (key & Hkey & Hex).
      apply (Hkeys key); [apply list_elem_of_In, Hkey |].
      apply (existsb_same (Z * Z)). exact Hex.
Qed.

(** A row is stored exactly when its primary key and its constrained pairs
    are new and its references exist; it is then the last row. *)
Lemma insert_spec (rows : list Row) (r : Row) (rows' : list Row) :
  Table.insert table rows r = Return rows'
  <-> rows' = rows ++ [r]
      /\ (Table.primary_key table r ∉ (Table.primary_key table <$> rows))
      /\ ((forall key, key ∈ Table.table_args table -> key r ∉ (key <$> rows)))
      /\ Table.references_hold table r = true.
Proof.
  unfold Table.insert. split.
  - destruct (Table.conflicts table rows r) eqn:Hc; simpl; [discriminate |].
    destruct (Table.references_hold table r) eqn:Hfk; simpl; [| discriminate].
    intros Hret. injection Hret as <-.
    apply conflicts_spec in Hc as [Hid Hkeys]. auto.
  - intros (-> & Hid & Hkeys & Hfk).
    rewrite (proj2 (conflicts_spec rows r) (conj Hid Hkeys)), Hfk. reflexivity.
Qed.

Lemma update_spec (rows : list Row) (i : nat) (r : Row) (rows' : list Row) :
  Table.update table rows i r = Return rows'
  <-> rows' = <[i := r]> rows
      /\ (Table.primary_key table r
          ∉ (Table.primary_key table <$> Table.delete rows i))
      /\ (forall key, key ∈ Table.table_args table ->
                      key r ∉ (key <$> Table.delete rows i))
      /\ Table.references_hold table r = true.
Proof.
  unfold Table.update, Table.delete. split.
  - destruct (Table.conflicts table _ r) eqn:Hc; simpl; [discriminate |].
    destruct (Table.references_hold table r) eqn:Hfk; simpl; [| discriminate].
    intros Hret. injection Hret as <-.
    apply conflicts_spec in Hc as [Hid Hkeys]. auto.
  - intros (-> & Hid & Hkeys & Hfk).
    rewrite (proj2 (conflicts_spec _ r) (conj Hid Hkeys)), Hfk. reflexivity.
Qed.


Lemma unique_rows_delete (rows : list Row) (i : nat) :
  Table.unique_rows table rows -> Table.unique_rows table (Table.delete rows i).
Proof.
  intros (Hid & Hkeys & Hfk). split; [| split].
  - apply no_dup_delete, Hid.
  - rewrite Forall_forall in *. intros key Hkey.
    apply no_dup_delete, Hkeys, Hkey.
  - unfold Table.delete. apply Forall_app.
    split; [apply Forall_take, Hfk | apply Forall_drop, Hfk].
Qed.

(** Every state of the table keeps its constraints. *)
Lemma reachable_unique (rows : list Row) :
  Table.reachable table rows -> Table.unique_rows table rows.
Proof.
  induction 1 as [| rows r rows' _ IH Hins | rows i r rows' _ IH Hupd | rows i _ IH].
  - split; [constructor | split; [| constructor]].
    apply Forall_forall. intros key _. constructor.
  - apply insert_spec in Hins as (-> & Hid & Hkeys & Hfk).
    destruct IH as (IHid & IHkeys & IHfk). split; [| split].
    + apply no_dup_append; assumption.
    + rewrite Forall_forall in *. intros key Hkey.
      apply no_dup_append; [apply IHkeys, Hkey | apply Hkeys, Hkey].
    + apply Forall_app. split; [exact IHfk |].
      constructor; [exact Hfk | constructor].
  - apply update_spec in Hupd as (-> & Hid & Hkeys & Hfk).
    destruct IH as (IHid & IHkeys & IHfk). split; [| split].
    + apply no_dup_replace; assumption.
    + rewrite Forall_forall in *. intros key Hkey.
      apply no_dup_replace; [apply IHkeys, Hkey | apply Hkeys, Hkey].
    + destruct (decide (i < length rows)) as [Hlt | Hge];
        [| rewrite list_insert_ge by lia; exact IHfk].
      apply Forall_insert; assumption.
  - apply unique_rows_delete, IH.
Qed.


(** A row that keeps the primary key, the constrained pairs and the
    references of the stored row it replaces is accepted. *)
Lemma update_same_key (rows : list Row) (i : nat) (r0 r : Row) :
  Table.reachable table rows -> rows !! i = Some r0 ->
  Table.primary_key table r = Table.primary_key table r0 ->
  (forall key, key ∈ Table.table_args table -> key r = key r0) ->
  Table.references_hold table r = Table.references_hold table r0 ->
  Table.update table rows i r = Return (<[i := r]> rows).
Proof.
  intros Hreach Hi Hid Hkeys Hfk.
  apply reachable_unique in Hreach as (Uid & Ukeys & Ufk).
  apply update_spec. split; [reflexivity | split; [| split]].
  - exact (same_projection_fresh _ rows i r0 r Uid Hi Hid).
  - intros key Hkey. rewrite Forall_forall in Ukeys.
    exact (same_projection_fresh _ rows i r0 r (Ukeys key Hkey) Hi (Hkeys key Hkey)).
  - rewrite Hfk. rewrite Forall_forall in Ufk. apply Ufk.
    apply list_elem_of_lookup. exists i. exact Hi.
Qed.

End TableInvariant.













(** ** Status workflow *)

(** C5. The workflow admits exactly the transitions new to reviewed, reviewed
    to contacted and new, reviewed or contacted to rejected, and nothing
    leaves rejected. A transition fails, and then with [InvalidTransition],
    exactly when the new status differs from the current one and is not
    admitted from it; a transition to the current status returns the record
    as it is, with no history entry; an admitted one sets the status and
    appends one entry. *)
Theorem transition_fails_iff_not_allowed :
  (forall from to : StatusWorkflow.Status,
     StatusWorkflow.allowed from to = true
     <-> (from = StatusWorkflow.new /\ to = StatusWorkflow.reviewed)
         \/ (from = StatusWorkflow.reviewed /\ to = StatusWorkflow.contacted)
         \/ (from <> StatusWorkflow.rejected /\ to = StatusWorkflow.rejected))
  /\ (forall to, StatusWorkflow.allowed StatusWorkflow.rejected to = false)
  /\ (forall m to actor note,
        StatusWorkflow.transition m to actor note = Raise InvalidTransition
        <-> (to <> StatusWorkflow.status m
             /\ StatusWorkflow.allowed (StatusWorkflow.status m) to = false))
  /\ (forall m to actor note,
        raises (StatusWorkflow.transition m to actor note) ->
        StatusWorkflow.transition m to actor note = Raise InvalidTransition)
  /\ (forall m actor note,
        StatusWorkflow.transition m (StatusWorkflow.status m) actor note = Return m)
  /\ (forall m to actor note,
        to <> StatusWorkflow.status m ->
        StatusWorkflow.allowed (StatusWorkflow.status m) to = true ->
        StatusWorkflow.transition m to actor note
        = Return {| StatusWorkflow.status := to;
                    StatusWorkflow.history :=
                      StatusWorkflow.history m
                      ++ [StatusWorkflow.mkEntry (StatusWorkflow.status m) to
                            actor note] |}).
Proof.
  split; [| split; [| split; [| split; [| split]]]].
  - intros from to. split.
    + destruct from, to; simpl; intros H; try discriminate H;
        intuition congruence.
    + intros [[-> ->] | [[-> ->] | [Hne ->]]]; try reflexivity.
      destruct from; try reflexivity. contradiction.
  - intros to. destruct to; reflexivity.
  - intros m to actor note. unfold StatusWorkflow.transition. split.
    + destruct (decide (StatusWorkflow.status m = to)) as [Heq | Hne];
        [discriminate |].
      destruct (StatusWorkflow.allowed _ to) eqn:Hal; [discriminate |].
      intros _. split; [congruence | reflexivity].
    + intros [Hne Hal]. rewrite decide_False by congruence. rewrite Hal. reflexivity.
  - intros m to actor note [e He]. unfold StatusWorkflow.transition in *.
    destruct (decide _); [discriminate He |].
    destruct (StatusWorkflow.allowed _ to); [discriminate He | reflexivity].
  - intros m actor note. unfold StatusWorkflow.transition.
    rewrite decide_True by reflexivity. reflexivity.
  - intros m to actor note Hne Hal. unfold StatusWorkflow.transition.
    rewrite decide_False by congruence. rewrite Hal. reflexivity.
Qed.

Lemma transition_fails_iff_not_allowed_witness :
  StatusWorkflow.transition
    {| StatusWorkflow.status := StatusWorkflow.new; StatusWorkflow.history := [] |}
    StatusWorkflow.contacted "recruiter-7" None
  = Raise InvalidTransition
  /\ StatusWorkflow.transition
       {| StatusWorkflow.status := StatusWorkflow.reviewed;
          StatusWorkflow.history := [] |}
       StatusWorkflow.contacted "recruiter-7" None
     = Return {| StatusWorkflow.status := StatusWorkflow.contacted;
                 StatusWorkflow.history :=
                   [StatusWorkflow.mkEntry StatusWorkflow.reviewed
                      StatusWorkflow.contacted "recruiter-7" None] |}.
Proof.
  destruct transition_fails_iff_not_allowed as (_ & _ & H3 & _ & _ & H6).
  split.
  - apply H3. split; [discriminate | reflexivity].
  - apply (H6 {| StatusWorkflow.status := StatusWorkflow.reviewed;
                 StatusWorkflow.history := [] |});
      [discriminate | reflexivity].
Defined.
(** * Further properties of the scoring code *)

(** ** Skill overlap *)

Lemma jaccard_bounds (A B : gset string) : (0 <= jaccard A B <= 1)%R.
Proof.
  unfold jaccard. destruct (decide (A = ∅ \/ B = ∅)) as [H | H]; [lra |].
  assert (HA : A <> ∅) by tauto.
  pose proof (union_size_pos A B HA) as Hpos.
  assert (Hle : (size (A ∩ B) <= size (A ∪ B))%nat).
  { apply subseteq_size.
    etransitivity; [apply intersection_subseteq_l | apply union_subseteq_l]. }
  apply le_INR in Hle.
  assert (Hu : (0 < INR (size (A ∪ B)))%R) by (apply lt_0_INR; lia).
  pose proof (pos_INR (size (A ∩ B))) as Hi.
  split.
  - apply Rmult_le_pos; [exact Hi |]. left. apply Rinv_0_lt_compat, Hu.
  - apply (Rmult_le_reg_r (INR (size (A ∪ B)))); [exact Hu |].
    unfold Rdiv. rewrite Rmult_assoc, Rinv_l by lra. lra.
Qed.

Lemma jaccard_one_iff (A B : gset string) :
  A <> ∅ -> B <> ∅ -> jaccard A B = 1%R <-> A = B.
Proof.
  intros HA HB. unfold jaccard. rewrite decide_False by tauto.
  pose proof (union_size_pos A B HA) as Hpos.
  assert (Hu : (0 < INR (size (A ∪ B)))%R) by (apply lt_0_INR; lia).
  split.
  - intros Hone.
    assert (Hsz : size (A ∩ B) = size (A ∪ B)).
    { apply INR_eq. apply (Rmult_eq_reg_r (/ INR (size (A ∪ B)))).
      - fold (Rdiv (INR (size (A ∩ B))) (INR (size (A ∪ B)))). rewrite Hone.
        rewrite Rinv_r by lra. reflexivity.
      - apply Rinv_neq_0_compat. lra. }
    assert (Heq : A ∩ B = A ∪ B).
    { apply set_subseteq_size_eq; [| lia].
      etransitivity; [apply intersection_subseteq_l | apply union_subseteq_l]. }
    apply leibniz_equiv. intros name. split; intros Hin.
    + assert (Hi : name ∈ A ∩ B).
      { rewrite Heq. apply elem_of_union. left. exact Hin. }
      apply elem_of_intersection in Hi. tauto.
    + assert (Hi : name ∈ A ∩ B).
      { rewrite Heq. apply elem_of_union. right. exact Hin. }
      apply elem_of_intersection in Hi. tauto.
  - intros <-. rewrite (idemp_L (∪) A) in Hu.
    rewrite (idemp_L (∩) A), (idemp_L (∪) A).
    apply Rdiv_diag. lra.
Qed.

(** X1. The skill score of both implementations lies between 0 and 1, and
    the two implementations give the same score for the same job and
    candidate rows. *)
Theorem skill_score_bounded_and_shared :
  (forall candidate job,
     (0 <= CandidateJobMatch._calculate_skills_match candidate job <= 1)%R)
  /\ (forall db self,
        (0 <= JobCandidateMatch._calculate_skill_match_score db self <= 1)%R)
  /\ (forall db self candidate job,
        jobs db !! JobCandidateMatch.job_id self = Some job ->
        candidates db !! JobCandidateMatch.candidate_id self = Some candidate ->
        JobCandidateMatch._calculate_skill_match_score db self
        = CandidateJobMatch._calculate_skills_match candidate job).
Proof.
  split; [| split].
  - intros candidate job. rewrite skills_match_is_overlap. apply jaccard_bounds.
  - intros db self. rewrite skill_match_score_is_overlap.
    destruct (jobs db !! _); [| lra].
    destruct (candidates db !! _); [apply jaccard_bounds | lra].
  - intros db self candidate job Hj Hc.
    rewrite skill_match_score_is_overlap, skills_match_is_overlap, Hj, Hc.
    reflexivity.
Qed.

Lemma skill_score_bounded_and_shared_witness :
  JobCandidateMatch._calculate_skill_match_score Sample.db
    (Sample.job_candidate_match 1)
  = CandidateJobMatch._calculate_skills_match Sample.candidate1 Sample.job1.
Proof.
  apply (proj2 (proj2 skill_score_bounded_and_shared) Sample.db
           (Sample.job_candidate_match 1) Sample.candidate1 Sample.job1);
    reflexivity.
Defined.

(** X2. With both skill lists non-empty the skill score is 1 exactly when
    the candidate and the job have the same set of lower-cased skill names;
    and two candidates whose lower-cased names form the same set, whatever
    their order, repetitions or letter case, get the same score against a
    job. *)
Theorem skill_score_full_match :
  (forall candidate job,
     default [] (Candidate.skills_array candidate) <> [] ->
     Job.skills_array job <> [] ->
     CandidateJobMatch._calculate_skills_match candidate job = 1%R
     <-> lower_set (default [] (Candidate.skills_array candidate))
         = lower_set (Job.skills_array job))
  /\ (forall candidate candidate' job,
        (forall name : string,
           name ∈ map Py.lower (default [] (Candidate.skills_array candidate))
           <-> name ∈ map Py.lower (default [] (Candidate.skills_array candidate'))) ->
        CandidateJobMatch._calculate_skills_match candidate job
        = CandidateJobMatch._calculate_skills_match candidate' job).
Proof.
  split.
  - intros candidate job HA HB. rewrite skills_match_is_overlap.
    unfold skill_overlap_lower.
    destruct (default [] (Candidate.skills_array candidate)) as [| x A];
      [contradiction |].
    destruct (Job.skills_array job) as [| y B]; [contradiction |].
    apply jaccard_one_iff; apply lower_set_cons_nonempty.
  - intros candidate candidate' job Hsame.
    rewrite !skills_match_is_overlap. unfold skill_overlap_lower.
    f_equal. unfold lower_set. apply leibniz_equiv. intros name.
    rewrite !elem_of_list_to_set. apply Hsame.
Qed.

Lemma skill_score_full_match_witness :
  CandidateJobMatch._calculate_skills_match
    (Candidate.mk (Some {[ "skills_array"%string := JStrList ["Go"; "GO"]%string ]})
                  None)
    Sample.job2 = 1%R.
Proof.
  apply (proj1 skill_score_full_match).
  - intros H. vm_compute in H. discriminate H.
  - intros H. vm_compute in H. discriminate H.
  - apply (bool_decide_eq_true_1
             (lower_set ["Go"; "GO"]%string = lower_set ["go"%string])).
    vm_compute. reflexivity.
Defined.

(** ** Similarity *)

Lemma sum_products_comm (a b : list R) : Np.sum_products a b = Np.sum_products b a.
Proof.
  revert b. induction a as [| x a IH]; intros [| y b]; simpl; try reflexivity.
  rewrite IH. lra.
Qed.

(** X3. The similarity is symmetric: exchanging the two vectors gives the
    same score, and fails when the original call fails. *)
Theorem similarity_symmetric :
  forall a b : list R,
    result_value (CandidateJobMatch._calculate_embedding_match a b)
    = result_value (CandidateJobMatch._calculate_embedding_match b a)
    /\ result_value (JobCandidateMatch._cosine_similarity (Some a) (Some b))
       = result_value (JobCandidateMatch._cosine_similarity (Some b) (Some a)).
Proof.
  assert (Hsym : forall a b : list R,
    result_value (CandidateJobMatch._calculate_embedding_match a b)
    = result_value (CandidateJobMatch._calculate_embedding_match b a)).
  { intros a b. unfold CandidateJobMatch._calculate_embedding_match, Np.dot.
    destruct (decide (length a = length b)) as [Hlen | Hlen].
    - rewrite (decide_True (P := length b = length a)) by congruence. simpl.
      rewrite (sum_products_comm b a), (Rmult_comm (Np.norm b)).
      destruct (Req_dec_T (Np.norm a) 0); destruct (Req_dec_T (Np.norm b) 0);
        reflexivity.
    - rewrite (decide_False (P := length b = length a)) by congruence.
      reflexivity. }
  intros a b. split; [apply Hsym |].
  destruct a as [| x a]; destruct b as [| y b]; try reflexivity.
  rewrite !cosine_similarity_is_embedding_match. apply Hsym.
Qed.

(** ** The combined score *)

Lemma cosine_similarity_bounds (va vb : option (list R)) (s : R) :
  JobCandidateMatch._cosine_similarity va vb = Return s -> (0 <= s <= 1)%R.
Proof.
  destruct va as [[| x a] |]; destruct vb as [[| y b] |]; simpl;
    try (intros H; injection H as <-; lra).
  unfold Np.dot. destruct (decide _) as [Hlen | Hlen]; [| discriminate]. simpl.
  destruct (Req_dec_T _ 0); [intros H; injection H as <-; lra |].
  destruct (Req_dec_T _ 0); [intros H; injection H as <-; lra |].
  intros H. injection H as <-. apply max_min_clamp_bounds.
Qed.

Lemma embedding_match_bounds (a b : list R) (s : R) :
  CandidateJobMatch._calculate_embedding_match a b = Return s -> (0 <= s <= 1)%R.
Proof.
  unfold CandidateJobMatch._calculate_embedding_match, Np.dot.
  destruct (decide _) as [Hlen | Hlen]; [| discriminate]. simpl.
  destruct (Req_dec_T _ 0); [intros H; injection H as <-; lra |].
  destruct (Req_dec_T _ 0); [intros H; injection H as <-; lra |].
  intros H. injection H as <-. apply max_min_clamp_bounds.
Qed.

Lemma skill_score_bounds_both :
  (forall candidate job,
     (0 <= CandidateJobMatch._calculate_skills_match candidate job <= 1)%R)
  /\ (forall db self,
        (0 <= JobCandidateMatch._calculate_skill_match_score db self <= 1)%R).
Proof.
  split.
  - intros candidate job. rewrite skills_match_is_overlap. apply jaccard_bounds.
  - intros db self. rewrite skill_match_score_is_overlap.
    destruct (jobs db !! _); [| lra].
    destruct (candidates db !! _); [apply jaccard_bounds | lra].
Qed.

(** X5. Whatever the rows and arguments, a score returned by
    [calculate_score] or [calculate_match_score] lies between 0 and 1, and so
    do the component scores [calculate_match_score] stores. *)
Theorem match_score_in_unit_interval :
  (forall db now self je ce v self' db',
     JobCandidateMatch.calculate_score db now self je ce = Return (v, self', db') ->
     (0 <= v <= 1)%R)
  /\ (forall db now self candidate job v self' db',
        (0 <= CandidateJobMatch.skills_match_score self <= 1)%R ->
        (0 <= CandidateJobMatch.embedding_match_score self <= 1)%R ->
        CandidateJobMatch.calculate_match_score db now self candidate job
        = Return (v, self', db') ->
        (0 <= v <= 1)%R
        /\ (0 <= CandidateJobMatch.skills_match_score self' <= 1)%R
        /\ (0 <= CandidateJobMatch.embedding_match_score self' <= 1)%R).
Proof.
  split.
  - intros db now self je ce v self' db' Hrun.
    unfold JobCandidateMatch.calculate_score in Hrun.
    pose proof (proj2 skill_score_bounds_both db self) as Hskill.
    destruct (negb _ || negb _).
    + injection Hrun as <- _ _. exact Hskill.
    + destruct (JobCandidateMatch._cosine_similarity _ _) as [sim | e] eqn:Hsim;
        simpl in Hrun; [| discriminate Hrun].
      apply cosine_similarity_bounds in Hsim.
      injection Hrun as <- _ _. lra.
  - intros db now self candidate job v self' db' Hs He Hrun.
    unfold CandidateJobMatch.calculate_match_score in Hrun.
    destruct (CandidateJobMatch.or_query candidate _ _) as [c |];
      [| injection Hrun as <- <- _; repeat split; try lra; tauto].
    destruct (CandidateJobMatch.or_query job _ _) as [j |];
      [| injection Hrun as <- <- _; repeat split; try lra; tauto].
    pose proof (proj1 skill_score_bounds_both c j) as Hskill.
    destruct (Candidate.embedding c) as [[| x a] |];
      destruct (Job.embedding j) as [[| y b] |];
      try (injection Hrun as <- <- _; simpl; repeat split; lra).
    destruct (CandidateJobMatch._calculate_embedding_match _ _) as [sim | e] eqn:Hsim;
      simpl in Hrun; [| discriminate Hrun].
    apply embedding_match_bounds in Hsim.
    injection Hrun as <- <- _. simpl. repeat split; lra.
Qed.

Lemma match_score_in_unit_interval_witness : (0 <= 0.6 <= 1)%R.
Proof.
  exact (proj1 match_score_in_unit_interval _ _ _ _ _ _ _ _ sample_full_run).
Defined.

Lemma embedding_match_swap (a b : list R) :
  result_value (CandidateJobMatch._calculate_embedding_match a b)
  = result_value (CandidateJobMatch._calculate_embedding_match b a).
Proof.
  unfold CandidateJobMatch._calculate_embedding_match, Np.dot.
  destruct (decide (length a = length b)) as [Hlen | Hlen].
  - rewrite (decide_True (P := length b = length a)) by congruence. simpl.
    rewrite (sum_products_comm b a), (Rmult_comm (Np.norm b)).
    destruct (Req_dec_T (Np.norm a) 0); destruct (Req_dec_T (Np.norm b) 0);
      reflexivity.
  - rewrite (decide_False (P := length b = length a)) by congruence.
    reflexivity.
Qed.

(** X6. Called without arguments on the same candidate and job, the two
    implementations return the same score, and one fails exactly when the
    other does. *)
Theorem implementations_agree :
  forall db now (m : JobCandidateMatch.t) (m' : CandidateJobMatch.t),
    JobCandidateMatch.job_id m = CandidateJobMatch.job_id m' ->
    JobCandidateMatch.candidate_id m = CandidateJobMatch.candidate_id m' ->
    score_value (JobCandidateMatch.calculate_score db now m None None)
    = score_value (CandidateJobMatch.calculate_match_score db now m' None None).
Proof.
  intros db now m m' Hj Hc.
  unfold JobCandidateMatch.calculate_score, CandidateJobMatch.calculate_match_score,
    JobCandidateMatch.resolve_job_embedding,
    JobCandidateMatch.resolve_candidate_embedding, CandidateJobMatch.or_query.
  simpl Py.truthy_opt_list. cbv iota.
  rewrite skill_match_score_is_overlap, Hj, Hc.
  destruct (candidates db !! CandidateJobMatch.candidate_id m') as [c |];
    destruct (jobs db !! CandidateJobMatch.job_id m') as [j |];
    try reflexivity.
  - rewrite <- skills_match_is_overlap.
    destruct (Job.embedding j) as [[| y b] |];
      destruct (Candidate.embedding c) as [[| x a] |]; try reflexivity.
    simpl negb. simpl orb. cbv iota.
    rewrite cosine_similarity_is_embedding_match.
    pose proof (embedding_match_swap (y :: b) (x :: a)) as Hswap.
    destruct (CandidateJobMatch._calculate_embedding_match (y :: b) (x :: a));
      destruct (CandidateJobMatch._calculate_embedding_match (x :: a) (y :: b));
      simpl in *; try discriminate Hswap; try reflexivity.
    injection Hswap as ->. f_equal. lra.
  - destruct (Job.embedding j) as [[| y b] |]; reflexivity.
Qed.

Lemma implementations_agree_witness :
  score_value (JobCandidateMatch.calculate_score Sample.db Sample.now
                 (Sample.job_candidate_match 2) None None)
  = score_value (CandidateJobMatch.calculate_match_score Sample.db Sample.now
                   (Sample.candidate_job_match 2) None None).
Proof.
  apply (implementations_agree Sample.db Sample.now (Sample.job_candidate_match 2)
           (Sample.candidate_job_match 2)); reflexivity.
Defined.

Lemma score_payload_again (now : string) (s k t : R)
    (previous : option (gmap string JSON)) :
  score_payload now s k t (Some (score_payload now s k t previous))
  = score_payload now s k t previous.
Proof.
  destruct (score_payload_lookups now s k t previous) as (H1 & H2 & H3 & H4 & _).
  set (d := score_payload now s k t previous) in *.
  unfold score_payload at 1. simpl default.
  rewrite (insert_id d _ _ H1), (insert_id d _ _ H2), (insert_id d _ _ H3).
  apply insert_id, H4.
Qed.

(** X7. Recomputing is idempotent: running the same score computation again,
    at the same time, on the record and session it left gives the same score
    and leaves the record as it is. *)
Theorem recomputation_idempotent :
  (forall db now self je ce v self' db',
     JobCandidateMatch.calculate_score db now self je ce = Return (v, self', db') ->
     JobCandidateMatch.calculate_score db' now self' je ce = Return (v, self', db'))
  /\ (forall db now self candidate job v self' db',
        CandidateJobMatch.calculate_match_score db now self candidate job
        = Return (v, self', db') ->
        CandidateJobMatch.calculate_match_score db' now self' candidate job
        = Return (v, self', db')).
Proof.
  split.
  - intros db now self je ce v self' db' Hrun.
    destruct (Py.truthy_opt_list
                (JobCandidateMatch.resolve_job_embedding db self je)) eqn:Hj;
      [destruct (Py.truthy_opt_list
                   (JobCandidateMatch.resolve_candidate_embedding db self ce)) eqn:Hc |].
    + destruct (JobCandidateMatch._cosine_similarity
                  (JobCandidateMatch.resolve_job_embedding db self je)
                  (JobCandidateMatch.resolve_candidate_embedding db self ce))
        as [sim | e] eqn:Hsim.
      * rewrite (calculate_score_full db now self je ce sim Hj Hc Hsim) in Hrun.
        injection Hrun as <- <- <-.
        set (skill := JobCandidateMatch._calculate_skill_match_score db self).
        set (self1 := JobCandidateMatch.mk _ _ _ _ _ _ _).
        assert (Hskill1 : JobCandidateMatch._calculate_skill_match_score db self1
                          = skill) by reflexivity.
        pose proof (calculate_score_full db now self1 je ce sim Hj Hc Hsim) as Hsecond.
        rewrite Hsecond, Hskill1.
        subst self1.
        cbn [JobCandidateMatch.id JobCandidateMatch.job_id
             JobCandidateMatch.candidate_id JobCandidateMatch.match_data
             JobCandidateMatch.status JobCandidateMatch.user_id].
        rewrite score_payload_again. reflexivity.
      * rewrite (calculate_score_raises db now self je ce e Hj Hc Hsim) in Hrun.
        discriminate Hrun.
    + rewrite (calculate_score_fallback db now self je ce (or_intror Hc)) in Hrun.
      injection Hrun as <- <- <-.
      apply calculate_score_fallback. right. exact Hc.
    + rewrite (calculate_score_fallback db now self je ce (or_introl Hj)) in Hrun.
      injection Hrun as <- <- <-.
      apply calculate_score_fallback. left. exact Hj.
  - intros db now self candidate job v self' db' Hrun.
    unfold CandidateJobMatch.calculate_match_score in *.
    destruct (CandidateJobMatch.or_query candidate (candidates db)
                (CandidateJobMatch.candidate_id self)) as [c |] eqn:Hc.
    2: { injection Hrun as <- <- <-. rewrite Hc. reflexivity. }
    destruct (CandidateJobMatch.or_query job (jobs db)
                (CandidateJobMatch.job_id self)) as [j |] eqn:Hj.
    2: { injection Hrun as <- <- <-. rewrite Hc, Hj. reflexivity. }
    destruct (Candidate.embedding c) as [[| x a] |] eqn:Hec;
      destruct (Job.embedding j) as [[| y b] |] eqn:Hej;
      try (injection Hrun as <- <- <-; cbn [CandidateJobMatch.candidate_id
             CandidateJobMatch.job_id]; rewrite Hc, Hj, Hec, ?Hej; reflexivity).
    destruct (CandidateJobMatch._calculate_embedding_match _ _) as [sim | e] eqn:Hsim;
      simpl in Hrun; [| discriminate Hrun].
    injection Hrun as <- <- <-.
    cbn [CandidateJobMatch.candidate_id CandidateJobMatch.job_id].
    rewrite Hc, Hj, Hec, Hej, Hsim. reflexivity.
Qed.

Lemma recomputation_idempotent_witness :
  JobCandidateMatch.calculate_score Sample.db Sample.now
    {| JobCandidateMatch.id := 2; JobCandidateMatch.job_id := 2;
       JobCandidateMatch.candidate_id := 2;
       JobCandidateMatch.score := 0.6%R;
       JobCandidateMatch.match_data :=
         Some (score_payload Sample.now 1 0 0.6 None);
       JobCandidateMatch.status := "new"%string;
       JobCandidateMatch.user_id := None |} None None
  = Return (0.6%R,
            {| JobCandidateMatch.id := 2; JobCandidateMatch.job_id := 2;
               JobCandidateMatch.candidate_id := 2;
               JobCandidateMatch.score := 0.6%R;
               JobCandidateMatch.match_data :=
                 Some (score_payload Sample.now 1 0 0.6 None);
               JobCandidateMatch.status := "new"%string;
               JobCandidateMatch.user_id := None |},
            Sample.db).
Proof.
  exact (proj1 recomputation_idempotent _ _ _ _ _ _ _ _ sample_full_run).
Defined.
(** ** Skill lists *)

Lemma lstrip_head (s : string) :
  Py.lstrip s = EmptyString
  \/ exists c t, Py.lstrip s = String c t /\ Py.is_space c = false.
Proof.
  induction s as [| c s IH]; simpl; [left; reflexivity |].
  destruct (Py.is_space c) eqn:Hc; [exact IH |].
  right. exists c, s. split; [reflexivity | exact Hc].
Qed.

Lemma rstrip_cons (c : ascii) (s : string) :
  Py.rstrip (String c s)
  = match Py.rstrip s with
    | EmptyString => if Py.is_space c then EmptyString else String c EmptyString
    | r => String c r
    end.
Proof. reflexivity. Qed.

Lemma rstrip_rstrip (s : string) : Py.rstrip (Py.rstrip s) = Py.rstrip s.
Proof.
  induction s as [| c s IH]; [reflexivity |].
  rewrite rstrip_cons.
  destruct (Py.rstrip s) as [| d r] eqn:Hr.
  - destruct (Py.is_space c) eqn:Hc; [reflexivity |].
    rewrite rstrip_cons. simpl. rewrite Hc. reflexivity.
  - rewrite rstrip_cons, IH. reflexivity.
Qed.

Lemma rstrip_keeps_head (c : ascii) (t : string) :
  Py.is_space c = false -> exists r, Py.rstrip (String c t) = String c r.
Proof.
  intros Hc. simpl. destruct (Py.rstrip t) as [| d r].
  - rewrite Hc. eexists. reflexivity.
  - eexists. reflexivity.
Qed.

Lemma strip_strip (s : string) : Py.strip (Py.strip s) = Py.strip s.
Proof.
  unfold Py.strip.
  assert (Hl : Py.lstrip (Py.rstrip (Py.lstrip s)) = Py.rstrip (Py.lstrip s)).
  { destruct (lstrip_head s) as [-> | (c & t & -> & Hc)]; [reflexivity |].
    destruct (rstrip_keeps_head c t Hc) as [r ->]. simpl. rewrite Hc. reflexivity. }
  rewrite Hl. apply rstrip_rstrip.
Qed.

Lemma lstrip_contains (c : ascii) (s : string) :
  contains_char c (Py.lstrip s) -> contains_char c s.
Proof.
  unfold contains_char. induction s as [| d s IH]; simpl; [tauto |].
  destruct (Py.is_space d); simpl; tauto.
Qed.

Lemma rstrip_contains (c : ascii) (s : string) :
  contains_char c (Py.rstrip s) -> contains_char c s.
Proof.
  unfold contains_char. induction s as [| d s IH]; simpl; [tauto |].
  destruct (Py.rstrip s) as [| e r].
  - destruct (Py.is_space d); simpl; tauto.
  - simpl in *. tauto.
Qed.

Lemma split_length (sep : ascii) (s : string) :
  length (Py.split sep s) = S (count_char sep s).
Proof.
  induction s as [| c s IH]; simpl; [reflexivity |].
  destruct (Ascii.eqb c sep); simpl; [rewrite IH; reflexivity |].
  destruct (Py.split sep s) as [| h t]; [discriminate IH | exact IH].
Qed.

Lemma split_items_without_separator (sep : ascii) (s : string) :
  Forall (fun item => ~ contains_char sep item) (Py.split sep s).
Proof.
  unfold contains_char.
  induction s as [| c s IH]; simpl.
  - constructor; [simpl; tauto | constructor].
  - destruct (Ascii.eqb c sep) eqn:Hc.
    + constructor; [simpl; tauto | exact IH].
    + apply Ascii.eqb_neq in Hc.
      destruct (Py.split sep s) as [| h t].
      * constructor; [simpl; intuition congruence | constructor].
      * inversion IH as [| ? ? Hh Ht]; subst.
        constructor; [simpl; intuition congruence | exact Ht].
Qed.

Lemma split_concat (sep : ascii) (s : string) :
  String.concat (String sep EmptyString) (Py.split sep s) = s.
Proof.
  induction s as [| c s IH]; simpl; [reflexivity |].
  destruct (Ascii.eqb c sep) eqn:Hc.
  - apply Ascii.eqb_eq in Hc. subst c.
    destruct (Py.split sep s) as [| h t] eqn:Hs.
    + pose proof (split_length sep s) as Hl. rewrite Hs in Hl. discriminate Hl.
    + simpl in *. rewrite IH. reflexivity.
  - destruct (Py.split sep s) as [| h t] eqn:Hs.
    + pose proof (split_length sep s) as Hl. rewrite Hs in Hl. discriminate Hl.
    + simpl in *. destruct t; simpl in *; rewrite <- IH; reflexivity.
Qed.

(** X8. [Job.skills_array] is empty when [required_skills] is unset or empty.
    Otherwise it has one item more than [required_skills] has commas, the
    items joined by commas give back [required_skills] before stripping, and
    every item is stripped of surrounding whitespace and holds no comma. *)
Theorem job_skills_array_items :
  (forall job,
     Job.required_skills job = None \/ Job.required_skills job = Some EmptyString ->
     Job.skills_array job = [])
  /\ (forall job s,
        Job.required_skills job = Some s -> s <> EmptyString ->
        Job.skills_array job = map Py.strip (Py.split "," s)
        /\ String.concat "," (Py.split "," s) = s
        /\ length (Job.skills_array job) = S (count_char "," s)
        /\ Forall (fun item => Py.strip item = item /\ ~ contains_char "," item)
                  (Job.skills_array job)).
Proof.
  split.
  - intros job [H | H]; unfold Job.skills_array; rewrite H; reflexivity.
  - intros job s Hs Hne.
    assert (Harr : Job.skills_array job = map Py.strip (Py.split "," s)).
    { unfold Job.skills_array. rewrite Hs.
      destruct s; [contradiction | reflexivity]. }
    split; [exact Harr |]. split; [apply split_concat |].
    rewrite Harr. split; [rewrite length_map; apply split_length |].
    apply Forall_forall. intros item Hin.
    apply list_elem_of_In, in_map_iff in Hin as (raw & <- & Hraw).
    split; [apply strip_strip |].
    intros Hc. apply rstrip_contains, lstrip_contains in Hc.
    pose proof (split_items_without_separator "," s) as Hall.
    rewrite Forall_forall in Hall. apply (Hall raw); [| exact Hc].
    apply list_elem_of_In, Hraw.
Qed.

Lemma job_skills_array_items_witness :
  Job.skills_array (Job.mk (Some " Python , go,,SQL "%string) None)
  = ["Python"; "go"; ""; "SQL"]%string
  /\ length (Job.skills_array (Job.mk (Some " Python , go,,SQL "%string) None)) = 4.
Proof.
  destruct (proj2 job_skills_array_items
              (Job.mk (Some " Python , go,,SQL "%string) None)
              " Python , go,,SQL "%string eq_refl ltac:(discriminate))
    as (H1 & _ & H2 & _).
  split; [rewrite H1; reflexivity | rewrite H2; reflexivity].
Defined.

Lemma candidate_skills_array_absent (candidate : Candidate.t) :
  Candidate.parsed_data candidate = None
  \/ (exists d, Candidate.parsed_data candidate = Some d
                /\ (d !! "skills_array"%string = None
                    \/ d !! "skills_array"%string = Some JNull)) ->
  default [] (Candidate.skills_array candidate) = [].
Proof.
  unfold Candidate.skills_array.
  intros [-> | (d & -> & Hd)]; [reflexivity |].
  case_bool_decide; [reflexivity |].
  destruct Hd as [-> | ->]; reflexivity.
Qed.

(** X9. A candidate whose [parsed_data] is unset, lacks the ["skills_array"]
    key or holds null under it, and a job whose [required_skills] is unset or
    empty, get the skill score 0 in both implementations, whatever the other
    side offers. *)
Theorem no_skills_scores_zero :
  forall candidate job,
    (Candidate.parsed_data candidate = None
     \/ (exists d, Candidate.parsed_data candidate = Some d
                   /\ (d !! "skills_array"%string = None
                       \/ d !! "skills_array"%string = Some JNull)))
    \/ (Job.required_skills job = None
        \/ Job.required_skills job = Some EmptyString) ->
    CandidateJobMatch._calculate_skills_match candidate job = 0%R
    /\ (forall db self,
          jobs db !! JobCandidateMatch.job_id self = Some job ->
          candidates db !! JobCandidateMatch.candidate_id self = Some candidate ->
          JobCandidateMatch._calculate_skill_match_score db self = 0%R).
Proof.
  intros candidate job H.
  assert (Hzero : skill_overlap_lower (default [] (Candidate.skills_array candidate))
                    (Job.skills_array job) = 0%R).
  { unfold skill_overlap_lower, jaccard. rewrite decide_True; [reflexivity |].
    destruct H as [Hc | Hj].
    - left. rewrite (candidate_skills_array_absent candidate Hc). reflexivity.
    - right. unfold Job.skills_array. destruct Hj as [-> | ->]; reflexivity. }
  split.
  - rewrite skills_match_is_overlap. exact Hzero.
  - intros db self Hj Hc. rewrite skill_match_score_is_overlap, Hj, Hc. exact Hzero.
Qed.

Lemma no_skills_scores_zero_witness :
  CandidateJobMatch._calculate_skills_match (Candidate.mk None None) Sample.job1
  = 0%R.
Proof.
  apply (proj1 (no_skills_scores_zero (Candidate.mk None None) Sample.job1
                  (or_introl (or_introl eq_refl)))).
Defined.

(** X10. The [skills_array] setter and getter of a candidate: a non-empty
    list is read back as it was written; writing an empty list or [None]
    leaves the list that is read unchanged, so stored skills cannot be cleared
    this way; the embedding and the other keys of [parsed_data] are never
    touched. *)
Theorem skills_array_set_then_get :
  forall (self : Candidate.t) (value : option (list string)),
    (forall skill skills, value = Some (skill :: skills) ->
       Candidate.skills_array (CandidateSetter.set_skills_array self value)
       = Some (skill :: skills))
    /\ (value = None \/ value = Some [] ->
        Candidate.skills_array (CandidateSetter.set_skills_array self value)
        = Candidate.skills_array self)
    /\ Candidate.embedding (CandidateSetter.set_skills_array self value)
       = Candidate.embedding self
    /\ (forall key : string, key <> "skills_array"%string ->
          default ∅ (Candidate.parsed_data
                       (CandidateSetter.set_skills_array self value)) !! key
          = default ∅ (Candidate.parsed_data self) !! key).
Proof.
  intros self value.
  unfold CandidateSetter.set_skills_array, Candidate.skills_array.
  cbn [Candidate.parsed_data Candidate.embedding].
  split; [| split; [| split]].
  - intros skill skills ->.
    rewrite bool_decide_eq_false_2.
    + rewrite lookup_insert_eq. reflexivity.
    + intros Hempty.
      assert (Hl : (<["skills_array"%string := JStrList (skill :: skills)]>
                      match Candidate.parsed_data self with
                      | Some d => if bool_decide (d = ∅) then ∅ else d
                      | None => ∅
                      end : gmap string JSON) !! "skills_array"%string = None)
        by (rewrite Hempty; apply lookup_empty).
      rewrite lookup_insert_eq in Hl. discriminate Hl.
  - intros Hv.
    assert (Hdata : match value with
                    | Some ((_ :: _) as skills) =>
                        <["skills_array"%string := JStrList skills]>
                          match Candidate.parsed_data self with
                          | Some d => if bool_decide (d = ∅) then ∅ else d
                          | None => ∅
                          end
                    | _ => match Candidate.parsed_data self with
                           | Some d => if bool_decide (d = ∅) then ∅ else d
                           | None => ∅
                           end
                    end
                    = match Candidate.parsed_data self with
                      | Some d => if bool_decide (d = ∅) then ∅ else d
                      | None => ∅
                      end)
      by (destruct Hv as [-> | ->]; reflexivity).
    rewrite Hdata.
    destruct (Candidate.parsed_data self) as [d |]; [| reflexivity].
    destruct (bool_decide (d = ∅)) eqn:Hd; [reflexivity |].
    rewrite Hd. reflexivity.
  - reflexivity.
  - intros key Hkey.
    destruct value as [[| skill skills] |]; simpl;
      rewrite ?lookup_insert_ne by congruence;
      destruct (Candidate.parsed_data self) as [d |]; simpl; try reflexivity;
      case_bool_decide; subst; reflexivity.
Qed.

Lemma skills_array_set_then_get_witness :
  Candidate.skills_array
    (CandidateSetter.set_skills_array Sample.candidate1 (Some ["rust"%string]))
  = Some ["rust"%string]
  /\ Candidate.skills_array
       (CandidateSetter.set_skills_array Sample.candidate1 (Some []))
     = Candidate.skills_array Sample.candidate1.
Proof.
  destruct (skills_array_set_then_get Sample.candidate1 (Some ["rust"%string]))
    as (H1 & _).
  destruct (skills_array_set_then_get Sample.candidate1 (Some []))
    as (_ & H2 & _).
  split; [apply H1; reflexivity | apply H2; right; reflexivity].
Defined.
(** * The processing status of a candidate *)

Lemma status_transitions_lookup (current : string) :
  CandidateProcessing._status_transitions !! current
  = if decide (current = "failed"%string) then Some ["pending"%string]
    else if decide (current = "complete"%string) then Some ["pending"%string]
    else if decide (current = "processing"%string)
         then Some ["complete"; "failed"]%string
    else if decide (current = "pending"%string) then Some ["processing"%string]
    else None.
Proof.
  unfold CandidateProcessing._status_transitions.
  repeat (case_decide; [subst; rewrite ?lookup_insert_ne by discriminate;
                        apply lookup_insert_eq |]).
  rewrite !lookup_insert_ne by congruence. apply lookup_empty.
Qed.

Lemma is_valid_transition_pairs (self : CandidateProcessing.t) (new_status : string) :
  CandidateProcessing.is_valid_transition self new_status = true
  <-> exists current,
        CandidateProcessing.processing_status self = Some current
        /\ (current, new_status) ∈ CandidateProcessing.transition_pairs.
Proof.
  unfold CandidateProcessing.is_valid_transition, CandidateProcessing.transition_pairs.
  destruct (CandidateProcessing.processing_status self) as [current |].
  2: { split; [discriminate | intros (c & Hc & _); discriminate Hc]. }
  rewrite status_transitions_lookup.
  split.
  - intros Hvalid. exists current. split; [reflexivity |].
    repeat case_decide; subst; try discriminate Hvalid;
      apply bool_decide_eq_true_1 in Hvalid;
      rewrite ?elem_of_cons, ?elem_of_nil in Hvalid;
      rewrite ?elem_of_cons; intuition (subst; auto).
  - intros (c & Hc & Hin). injection Hc as <-.
    rewrite !elem_of_cons, elem_of_nil in Hin.
    destruct Hin as [H | [H | [H | [H | [H | []]]]]]; injection H as -> ->;
      vm_compute; reflexivity.
Qed.

(** X11. A processing-status transition is valid exactly for the five pairs
    pending to processing, processing to complete or failed, and complete or
    failed back to pending; a candidate without status or with any other
    status admits none. The methods of models/candidate_status.py accept the
    same transitions. *)
Theorem valid_transitions_are_the_five_pairs :
  forall (self : CandidateProcessing.t) (new_status : string),
    (CandidateProcessing.is_valid_transition self new_status = true
     <-> exists current,
           CandidateProcessing.processing_status self = Some current
           /\ (current, new_status) ∈ CandidateProcessing.transition_pairs)
    /\ CandidateStatusMethods.is_valid_transition self new_status
       = CandidateProcessing.is_valid_transition self new_status.
Proof.
  intros self new_status. split; [apply is_valid_transition_pairs |].
  unfold CandidateStatusMethods.is_valid_transition,
    CandidateProcessing.is_valid_transition.
  destruct (CandidateProcessing.processing_status self) as [current |];
    [| reflexivity].
  change CandidateStatusMethods.status_transitions
    with CandidateProcessing._status_transitions.
  destruct (CandidateProcessing._status_transitions !! current) as [targets |].
  - rewrite bool_decide_eq_true_2 by eauto. reflexivity.
  - rewrite bool_decide_eq_false_2; [reflexivity |]. intros [x Hx]. discriminate Hx.
Qed.

(** X12. [transition_to] raises [ValueError] exactly when the transition is
    not valid, and then the candidate and the history table are unchanged.
    Otherwise it sets the new status and adds one history row, holding the
    candidate's id, the old and the new status and the error message of the
    call, after the rows already there. *)
Theorem transition_to_outcome :
  forall table self new_status message,
    (CandidateProcessing.is_valid_transition self new_status = false ->
     CandidateProcessing.transition_to table self new_status message
     = (CandidateProcessing.ValueError
          ("Invalid status transition: "
           ++ CandidateProcessing.str_status
                (CandidateProcessing.processing_status self)
           ++ " -> " ++ new_status),
        self, table))
    /\ (CandidateProcessing.is_valid_transition self new_status = true ->
        exists self',
          CandidateProcessing.transition_to table self new_status message
          = (CandidateProcessing.Done, self',
             table ++ [CandidateProcessing.mkHistory
                         (CandidateProcessing.id self)
                         (CandidateProcessing.processing_status self)
                         new_status message 0%R])
          /\ CandidateProcessing.id self' = CandidateProcessing.id self
          /\ CandidateProcessing.processing_status self' = Some new_status)
    /\ (fst (fst (CandidateProcessing.transition_to table self new_status message))
        = CandidateProcessing.Done
        <-> CandidateProcessing.is_valid_transition self new_status = true).
Proof.
  intros table self new_status message.
  unfold CandidateProcessing.transition_to.
  destruct (CandidateProcessing.is_valid_transition self new_status); simpl.
  - split; [discriminate |]. split; [| tauto].
    intros _. eexists. split; [reflexivity |]. split; reflexivity.
  - split; [reflexivity |]. split; [discriminate |].
    split; discriminate.
Qed.

Lemma transition_to_outcome_witness :
  CandidateProcessing.transition_to []
    (CandidateProcessing.mk 7 (Some "pending"%string) None) "complete" None
  = (CandidateProcessing.ValueError
       "Invalid status transition: pending -> complete",
     CandidateProcessing.mk 7 (Some "pending"%string) None, []).
Proof.
  apply (proj1 (transition_to_outcome []
                  (CandidateProcessing.mk 7 (Some "pending"%string) None)
                  "complete" None)).
  vm_compute. reflexivity.
Defined.

(** X13. The error message of a candidate after a valid transition: entering
    failed stores the message of the call, even when that is [None]; going
    from failed to pending clears it; any other transition keeps it. *)
Theorem transition_to_error_message :
  forall table self new_status message,
    CandidateProcessing.is_valid_transition self new_status = true ->
    let self' :=
      snd (fst (CandidateProcessing.transition_to table self new_status message)) in
    (new_status = "failed"%string ->
     CandidateProcessing.error_message self' = message)
    /\ (CandidateProcessing.processing_status self = Some "failed"%string ->
        CandidateProcessing.error_message self' = None
        /\ new_status = "pending"%string)
    /\ (new_status <> "failed"%string ->
        CandidateProcessing.processing_status self <> Some "failed"%string ->
        CandidateProcessing.error_message self'
        = CandidateProcessing.error_message self).
Proof.
  intros table self new_status message Hvalid self'. subst self'.
  unfold CandidateProcessing.transition_to. rewrite Hvalid. simpl.
  split; [| split].
  - intros ->. reflexivity.
  - intros Hfailed.
    apply is_valid_transition_pairs in Hvalid as (current & Hcur & Hin).
    rewrite Hfailed in Hcur. injection Hcur as <-.
    unfold CandidateProcessing.transition_pairs in Hin.
    rewrite !elem_of_cons, elem_of_nil in Hin.
    destruct Hin as [H | [H | [H | [H | [H | []]]]]]; try discriminate H.
    injection H as ->. rewrite Hfailed. split; reflexivity.
  - intros Hnf Hold.
    apply String.eqb_neq in Hnf. rewrite Hnf.
    rewrite (bool_decide_eq_false_2 _ Hold), andb_false_r. reflexivity.
Qed.

Lemma transition_to_error_message_witness :
  CandidateProcessing.error_message
    (snd (fst (CandidateProcessing.transition_to []
                 (CandidateProcessing.mk 7 (Some "failed"%string)
                    (Some "parser crashed"%string))
                 "pending" None)))
  = None.
Proof.
  apply (proj1 (proj1 (proj2 (transition_to_error_message []
           (CandidateProcessing.mk 7 (Some "failed"%string)
              (Some "parser crashed"%string))
           "pending" None ltac:(vm_compute; reflexivity))) eq_refl)).
Defined.

Lemma valid_transitions_are_the_five_pairs_witness :
  CandidateStatusMethods.is_valid_transition
    (CandidateProcessing.mk 7 (Some "processing"%string) None) "failed" = true.
Proof.
  destruct (valid_transitions_are_the_five_pairs
              (CandidateProcessing.mk 7 (Some "processing"%string) None) "failed")
    as [Hpairs ->].
  apply Hpairs. exists "processing"%string. split; [reflexivity |].
  unfold CandidateProcessing.transition_pairs. rewrite !elem_of_cons. tauto.
Defined.

Lemma transition_to_valid (table : list CandidateProcessing.History)
    (self : CandidateProcessing.t) (new_status : string) (message : option string) :
  CandidateProcessing.is_valid_transition self new_status = true ->
  exists self',
    CandidateProcessing.transition_to table self new_status message
    = (CandidateProcessing.Done, self',
       table ++ [CandidateProcessing.mkHistory (CandidateProcessing.id self)
                   (CandidateProcessing.processing_status self)
                   new_status message 0%R])
    /\ CandidateProcessing.id self' = CandidateProcessing.id self
    /\ CandidateProcessing.processing_status self' = Some new_status.
Proof.
  intros Hvalid. unfold CandidateProcessing.transition_to. rewrite Hvalid. simpl.
  eexists. split; [reflexivity |]. split; reflexivity.
Qed.

Lemma transition_to_invalid (table : list CandidateProcessing.History)
    (self : CandidateProcessing.t) (new_status : string) (message : option string) :
  CandidateProcessing.is_valid_transition self new_status = false ->
  snd (fst (CandidateProcessing.transition_to table self new_status message)) = self
  /\ snd (CandidateProcessing.transition_to table self new_status message) = table.
Proof.
  intros Hvalid. unfold CandidateProcessing.transition_to. rewrite Hvalid.
  split; reflexivity.
Qed.

Lemma request_all_cons (table : list CandidateProcessing.History)
    (self : CandidateProcessing.t) (new_status : string) (message : option string)
    (rest : list (string * option string)) :
  CandidateProcessing.request_all table self ((new_status, message) :: rest)
  = CandidateProcessing.request_all
      (snd (CandidateProcessing.transition_to table self new_status message))
      (snd (fst (CandidateProcessing.transition_to table self new_status message)))
      rest.
Proof.
  simpl.
  destruct (CandidateProcessing.transition_to table self new_status message)
    as [[outcome self'] table'].
  reflexivity.
Qed.

(** X14. However many transitions are requested of a candidate, valid or
    not, the history table only grows at its end, by at most one row per
    request; the new rows all carry the candidate's id and one of the five
    valid status pairs, and they form a chain: the first starts at the status
    the candidate had, each next row starts where the previous ended, and the
    last ends at the status the candidate has now. *)
Theorem history_is_a_chain :
  forall requests table self,
    let self' := fst (CandidateProcessing.request_all table self requests) in
    let table' := snd (CandidateProcessing.request_all table self requests) in
    exists rows,
      table' = table ++ rows
      /\ length rows <= length requests
      /\ CandidateProcessing.chained (CandidateProcessing.processing_status self)
           rows (CandidateProcessing.processing_status self')
      /\ CandidateProcessing.id self' = CandidateProcessing.id self
      /\ Forall (fun row =>
                   CandidateProcessing.candidate_id row = CandidateProcessing.id self
                   /\ exists from,
                        CandidateProcessing.from_status row = Some from
                        /\ (from, CandidateProcessing.to_status row)
                           ∈ CandidateProcessing.transition_pairs)
                rows.
Proof.
  induction requests as [| [new_status message] rest IH]; intros table self.
  - exists []. simpl. rewrite app_nil_r. repeat split; auto.
  - cbv zeta. rewrite request_all_cons.
    destruct (CandidateProcessing.is_valid_transition self new_status) eqn:Hvalid.
    + destruct (transition_to_valid table self new_status message Hvalid)
        as (self1 & Hrun & Hid & Hstatus).
      rewrite Hrun. cbn [fst snd].
      destruct (IH (table ++ [CandidateProcessing.mkHistory
                                (CandidateProcessing.id self)
                                (CandidateProcessing.processing_status self)
                                new_status message 0%R]) self1)
        as (rows & Htable & Hlen & Hchain & Hid' & Hall).
      eexists (_ :: rows). split; [rewrite Htable, <- app_assoc; reflexivity |].
      split; [simpl; lia |].
      split; [simpl; split; [reflexivity | rewrite <- Hstatus; exact Hchain] |].
      split; [congruence |].
      constructor.
      * split; [reflexivity |].
        apply is_valid_transition_pairs in Hvalid as (current & Hcur & Hin).
        exists current. split; [exact Hcur | exact Hin].
      * rewrite Hid in Hall. exact Hall.
    + destruct (transition_to_invalid table self new_status message Hvalid)
        as [-> ->].
      destruct (IH table self) as (rows & Htable & Hlen & Hrest).
      exists rows. split; [exact Htable |]. split; [simpl; lia | exact Hrest].
Qed.

(** X15. No valid transition leaves the status as it is, and a candidate
    without status, or with a status outside pending, processing, complete and
    failed, is stuck: whatever is requested, neither the candidate nor the
    history table ever changes. *)
Theorem unknown_status_is_stuck :
  (forall self new_status,
     CandidateProcessing.is_valid_transition self new_status = true ->
     CandidateProcessing.processing_status self <> Some new_status)
  /\ (forall requests table self,
        (forall current,
           CandidateProcessing.processing_status self = Some current ->
           current ∉ ["pending"; "processing"; "complete"; "failed"]%string) ->
        CandidateProcessing.request_all table self requests = (self, table)).
Proof.
  split.
  - intros self new_status Hvalid Hsame.
    apply is_valid_transition_pairs in Hvalid as (current & Hcur & Hin).
    rewrite Hsame in Hcur. injection Hcur as <-.
    unfold CandidateProcessing.transition_pairs in Hin.
    rewrite !elem_of_cons, elem_of_nil in Hin.
    destruct Hin as [H | [H | [H | [H | [H | []]]]]]; injection H as H1 H2;
      rewrite H1 in H2; discriminate H2.
  - intros requests table self Hunknown.
    induction requests as [| [new_status message] rest IH]; [reflexivity |].
    rewrite request_all_cons.
    assert (Hvalid : CandidateProcessing.is_valid_transition self new_status = false).
    { destruct (CandidateProcessing.is_valid_transition self new_status) eqn:Hv;
        [| reflexivity].
      apply is_valid_transition_pairs in Hv as (current & Hcur & Hin).
      exfalso. apply (Hunknown current Hcur).
      unfold CandidateProcessing.transition_pairs in Hin.
      rewrite !elem_of_cons, elem_of_nil in Hin. rewrite !elem_of_cons.
      destruct Hin as [H | [H | [H | [H | [H | []]]]]]; injection H as -> _; tauto. }
    destruct (transition_to_invalid table self new_status message Hvalid) as [-> ->].
    exact IH.
Qed.

Lemma unknown_status_is_stuck_witness :
  CandidateProcessing.request_all []
    (CandidateProcessing.mk 7 (Some "archived"%string) None)
    [("pending"%string, None); ("processing"%string, None)]
  = (CandidateProcessing.mk 7 (Some "archived"%string) None, []).
Proof.
  apply (proj2 unknown_status_is_stuck).
  intros current Hcur. injection Hcur as <-.
  rewrite !elem_of_cons, elem_of_nil.
  intros [H | [H | [H | [H | []]]]]; discriminate H.
Defined.
(** * Job expiry and owner columns *)

(** X16. After [before_save] the legacy [user_id] and the [recruiter_id] of a
    job are both set or both unset; when exactly one was set, both now hold
    its value; two values that were both set are left as they are, even when
    they differ; and running the hook again changes nothing. *)
Theorem before_save_syncs_owner :
  forall target : JobLifecycle.t,
    let saved := JobLifecycle.before_save target in
    (JobLifecycle.user_id saved = None <-> JobLifecycle.recruiter_id saved = None)
    /\ (JobLifecycle.user_id target = None \/ JobLifecycle.recruiter_id target = None ->
        JobLifecycle.user_id saved = JobLifecycle.recruiter_id saved)
    /\ (forall u r,
          JobLifecycle.user_id target = Some u ->
          JobLifecycle.recruiter_id target = Some r -> saved = target)
    /\ JobLifecycle.before_save saved = saved
    /\ JobLifecycle.expires_at saved = JobLifecycle.expires_at target.
Proof.
  intros [[u |] [r |] e]; cbv zeta; unfold JobLifecycle.before_save; simpl;
    repeat split; try tauto; try discriminate; try reflexivity;
    intros [H | H]; try discriminate H; reflexivity.
Qed.

Lemma before_save_syncs_owner_witness :
  JobLifecycle.user_id
    (JobLifecycle.before_save (JobLifecycle.mk None (Some 4%Z) None))
  = JobLifecycle.recruiter_id
      (JobLifecycle.before_save (JobLifecycle.mk None (Some 4%Z) None)).
Proof.
  apply (proj1 (proj2 (before_save_syncs_owner
                         (JobLifecycle.mk None (Some 4%Z) None)))).
  left. reflexivity.
Defined.

(** X17. [days_until_expiry] is never negative; it is 0 for a job without
    expiry date and for an expired job; for a job that expires at or after
    the clock readings it is the number of whole days left. *)
Theorem days_until_expiry_range :
  forall now1 now2 self,
    (0 <= JobLifecycle.days_until_expiry now1 now2 self)%Z
    /\ (JobLifecycle.expires_at self = None ->
        JobLifecycle.days_until_expiry now1 now2 self = 0%Z)
    /\ (JobLifecycle.is_expired now1 self = true ->
        JobLifecycle.days_until_expiry now1 now2 self = 0%Z)
    /\ (forall e, JobLifecycle.expires_at self = Some e ->
          (now1 <= e)%Z -> (now2 <= e)%Z ->
          JobLifecycle.days_until_expiry now1 now2 self
          = ((e - now2) / JobLifecycle.day)%Z
          /\ (JobLifecycle.days_until_expiry now1 now2 self * JobLifecycle.day
              <= e - now2
              < (JobLifecycle.days_until_expiry now1 now2 self + 1)
                * JobLifecycle.day)%Z).
Proof.
  intros now1 now2 self. unfold JobLifecycle.days_until_expiry.
  split; [| split; [| split]].
  - destruct (JobLifecycle.expires_at self); [| lia].
    destruct (JobLifecycle.is_expired now1 self); lia.
  - intros ->. reflexivity.
  - intros ->. destruct (JobLifecycle.expires_at self); reflexivity.
  - intros e He H1 H2. unfold JobLifecycle.is_expired. rewrite He.
    assert (Hlt : (e <? now1)%Z = false) by (apply Z.ltb_ge; lia).
    rewrite Hlt. unfold JobLifecycle.days_of, JobLifecycle.day.
    assert (0 <= (e - now2) / 86400000000)%Z by (apply Z.div_pos; lia).
    rewrite Z.max_r by lia. split; [reflexivity |].
    pose proof (Z.div_mod (e - now2) 86400000000 ltac:(lia)).
    pose proof (Z.mod_pos_bound (e - now2) 86400000000 ltac:(lia)). lia.
Qed.

Lemma days_until_expiry_range_witness :
  JobLifecycle.days_until_expiry 0%Z 0%Z
    (JobLifecycle.mk None None (Some (3 * JobLifecycle.day + 5)%Z)) = 3%Z.
Proof.
  destruct (proj2 (proj2 (proj2 (days_until_expiry_range 0%Z 0%Z
              (JobLifecycle.mk None None (Some (3 * JobLifecycle.day + 5)%Z)))))
              (3 * JobLifecycle.day + 5)%Z eq_refl)
    as [H _]; [vm_compute; discriminate | vm_compute; discriminate |].
  rewrite H. reflexivity.
Defined.

Lemma renew_from (base days : Z) :
  (0 <= days)%Z -> (JobLifecycle.datetime_min <= base)%Z ->
  ((days <= JobLifecycle.timedelta_max_days)%Z ->
   (base + days * JobLifecycle.day <= JobLifecycle.datetime_max)%Z ->
   (delta <- JobLifecycle.timedelta_days days ;;
    JobLifecycle.datetime_add base delta)
   = Return (base + days * JobLifecycle.day)%Z)
  /\ ((JobLifecycle.timedelta_max_days < days)%Z
      \/ (JobLifecycle.datetime_max < base + days * JobLifecycle.day)%Z ->
      (delta <- JobLifecycle.timedelta_days days ;;
       JobLifecycle.datetime_add base delta)
      = Raise OverflowError).
Proof.
  intros Hdays Hbase.
  assert (Hday : (0 < JobLifecycle.day)%Z) by (unfold JobLifecycle.day; lia).
  unfold JobLifecycle.timedelta_days, JobLifecycle.datetime_add.
  rewrite (Z.abs_eq days Hdays). split.
  - intros Hmax Hfit.
    rewrite (proj2 (Z.leb_le _ _) Hmax). simpl.
    assert (Hlow : (JobLifecycle.datetime_min <=? base + days * JobLifecycle.day)%Z
                   = true) by (apply Z.leb_le; nia).
    rewrite Hlow, (proj2 (Z.leb_le _ _) Hfit). reflexivity.
  - intros Hover.
    destruct (days <=? JobLifecycle.timedelta_max_days)%Z eqn:Hmax; [| reflexivity].
    simpl. apply Z.leb_le in Hmax.
    destruct Hover as [Hover | Hover]; [lia |].
    assert (Hhigh : (base + days * JobLifecycle.day <=? JobLifecycle.datetime_max)%Z
                    = false) by (apply Z.leb_gt; exact Hover).
    rewrite Hhigh, andb_false_r. reflexivity.
Qed.

Lemma renew_result (now1 now2 : Z) (self : JobLifecycle.t) (days : Z) :
  exists base,
    JobLifecycle.renew now1 now2 self days
    = (expires <- (delta <- JobLifecycle.timedelta_days days ;;
                   JobLifecycle.datetime_add base delta) ;;
       Return (JobLifecycle.mk (JobLifecycle.user_id self)
                 (JobLifecycle.recruiter_id self) (Some expires)))
    /\ base = match JobLifecycle.expires_at self with
              | None => now1
              | Some e => if JobLifecycle.is_expired now1 self then now2 else e
              end.
Proof.
  unfold JobLifecycle.renew.
  destruct (JobLifecycle.expires_at self) as [e |];
    [destruct (JobLifecycle.is_expired now1 self) |];
    eexists; (split; [| reflexivity]);
    destruct (JobLifecycle.timedelta_days days); reflexivity.
Qed.

(** X18. [renew(days)] with [days] not negative. On a job that has not
    expired it adds exactly [days] days to the expiry date, so at any later
    reading of the clock before the old expiry the days left have grown by
    [days]. On a job without expiry date the new date is the one clock
    reading plus [days] days, on an expired job the second clock reading plus
    [days] days; a clock read again at the same microsecond then shows
    [days] days left, and a clock read later, within the next day, shows
    [days - 1] (0 for [days = 0]). When [days] exceeds 999999999 or the new
    date exceeds [datetime.max] the call raises [OverflowError]. A renewal
    never moves the expiry backwards and leaves the owner columns alone. *)
Theorem renew_extends_expiry :
  forall now1 now2 self days,
    (now1 <= now2)%Z -> (0 <= days)%Z ->
    (forall e,
       JobLifecycle.expires_at self = Some e ->
       (now1 <= e)%Z -> (JobLifecycle.datetime_min <= e)%Z ->
       let renewed :=
         JobLifecycle.mk (JobLifecycle.user_id self)
           (JobLifecycle.recruiter_id self)
           (Some (e + days * JobLifecycle.day)%Z) in
       ((days <= JobLifecycle.timedelta_max_days)%Z ->
        (e + days * JobLifecycle.day <= JobLifecycle.datetime_max)%Z ->
        JobLifecycle.renew now1 now2 self days = Return renewed)
       /\ ((JobLifecycle.timedelta_max_days < days)%Z
           \/ (JobLifecycle.datetime_max < e + days * JobLifecycle.day)%Z ->
           JobLifecycle.renew now1 now2 self days = Raise OverflowError)
       /\ (forall later1 later2,
             (later1 <= e)%Z -> (later2 <= e)%Z ->
             JobLifecycle.days_until_expiry later1 later2 renewed
             = (JobLifecycle.days_until_expiry later1 later2 self + days)%Z))
    /\ (forall base,
          (JobLifecycle.expires_at self = None /\ base = now1)
          \/ (JobLifecycle.is_expired now1 self = true /\ base = now2) ->
          (JobLifecycle.datetime_min <= base)%Z ->
          let renewed :=
            JobLifecycle.mk (JobLifecycle.user_id self)
              (JobLifecycle.recruiter_id self)
              (Some (base + days * JobLifecycle.day)%Z) in
          ((days <= JobLifecycle.timedelta_max_days)%Z ->
           (base + days * JobLifecycle.day <= JobLifecycle.datetime_max)%Z ->
           JobLifecycle.renew now1 now2 self days = Return renewed)
          /\ ((JobLifecycle.timedelta_max_days < days)%Z
              \/ (JobLifecycle.datetime_max < base + days * JobLifecycle.day)%Z ->
              JobLifecycle.renew now1 now2 self days = Raise OverflowError)
          /\ (forall later1,
                (later1 <= base)%Z ->
                JobLifecycle.days_until_expiry later1 base renewed = days)
          /\ (forall later1 later2,
                (later1 <= later2)%Z ->
                (base < later2 <= base + JobLifecycle.day)%Z ->
                JobLifecycle.days_until_expiry later1 later2 renewed
                = Z.max 0 (days - 1)))
    /\ (forall e renewed e',
          JobLifecycle.expires_at self = Some e ->
          JobLifecycle.renew now1 now2 self days = Return renewed ->
          JobLifecycle.expires_at renewed = Some e' -> (e <= e')%Z)
    /\ (forall renewed,
          JobLifecycle.renew now1 now2 self days = Return renewed ->
          JobLifecycle.user_id renewed = JobLifecycle.user_id self
          /\ JobLifecycle.recruiter_id renewed = JobLifecycle.recruiter_id self).
Proof.
  intros now1 now2 self days Hclock Hdays.
  assert (Hday : (0 < JobLifecycle.day)%Z) by (unfold JobLifecycle.day; lia).
  destruct (renew_result now1 now2 self days) as (base0 & Hrenew & Hbase0).
  split; [| split; [| split]].
  - intros e He Hlive Hvalid renewed.
    assert (Hnot : JobLifecycle.is_expired now1 self = false).
    { unfold JobLifecycle.is_expired. rewrite He. apply Z.ltb_ge. lia. }
    rewrite He, Hnot in Hbase0. subst base0.
    destruct (renew_from e days Hdays Hvalid) as [Hok Hover].
    split; [| split].
    + intros Hmax Hfit. rewrite Hrenew, (Hok Hmax Hfit). reflexivity.
    + intros Hbig. rewrite Hrenew, (Hover Hbig). reflexivity.
    + intros later1 later2 H1 H2. subst renewed.
      unfold JobLifecycle.days_until_expiry, JobLifecycle.is_expired,
        JobLifecycle.days_of.
      rewrite He. cbn [JobLifecycle.expires_at].
      assert (Hlt : (e <? later1)%Z = false) by (apply Z.ltb_ge; lia).
      assert (Hlt' : (e + days * JobLifecycle.day <? later1)%Z = false)
        by (apply Z.ltb_ge; nia).
      rewrite Hlt, Hlt'.
      replace (e + days * JobLifecycle.day - later2)%Z
        with (e - later2 + days * JobLifecycle.day)%Z by lia.
      rewrite Z.div_add by lia.
      assert (0 <= (e - later2) / JobLifecycle.day)%Z by (apply Z.div_pos; lia).
      lia.
  - intros base Hgone Hvalid renewed.
    assert (Heq : base0 = base).
    { destruct Hgone as [[Hnone ->] | [Hexp ->]].
      - rewrite Hnone in Hbase0. exact Hbase0.
      - rewrite Hexp in Hbase0. unfold JobLifecycle.is_expired in Hexp.
        revert Hexp Hbase0.
        destruct (JobLifecycle.expires_at self); [tauto | discriminate]. }
    clear Hbase0. subst base0.
    destruct (renew_from base days Hdays Hvalid) as [Hok Hover].
    split; [| split; [| split]].
    + intros Hmax Hfit. rewrite Hrenew, (Hok Hmax Hfit). reflexivity.
    + intros Hbig. rewrite Hrenew, (Hover Hbig). reflexivity.
    + intros later1 H1. subst renewed.
      unfold JobLifecycle.days_until_expiry, JobLifecycle.is_expired,
        JobLifecycle.days_of.
      cbn [JobLifecycle.expires_at].
      assert (Hlt : (base + days * JobLifecycle.day <? later1)%Z = false)
        by (apply Z.ltb_ge; nia).
      rewrite Hlt.
      replace (base + days * JobLifecycle.day - base)%Z
        with (days * JobLifecycle.day)%Z by lia.
      rewrite Z.div_mul by lia. lia.
    + intros later1 later2 H12 [Hafter Hwithin]. subst renewed.
      unfold JobLifecycle.days_until_expiry, JobLifecycle.is_expired,
        JobLifecycle.days_of.
      cbn [JobLifecycle.expires_at].
      assert (Hdiv : ((base + days * JobLifecycle.day - later2) / JobLifecycle.day
                      = days - 1)%Z).
      { symmetry. apply (Z.div_unique_pos _ _ _
                           (base + JobLifecycle.day - later2)%Z); lia. }
      rewrite Hdiv.
      destruct (base + days * JobLifecycle.day <? later1)%Z eqn:Hlt;
        [| reflexivity].
      apply Z.ltb_lt in Hlt. assert (days = 0)%Z by nia. subst days. reflexivity.
  - intros e renewed e' He Hret Hnew.
    rewrite Hrenew in Hret. rewrite He in Hbase0.
    unfold JobLifecycle.timedelta_days, JobLifecycle.datetime_add in Hret.
    destruct (Z.abs days <=? _)%Z; simpl in Hret; [| discriminate Hret].
    destruct (_ && _); simpl in Hret; [| discriminate Hret].
    injection Hret as <-. simpl in Hnew. injection Hnew as <-.
    unfold JobLifecycle.is_expired in Hbase0. rewrite He in Hbase0.
    destruct (e <? now1)%Z eqn:Hlt; subst base0.
    + apply Z.ltb_lt in Hlt. nia.
    + nia.
  - intros renewed Hret. rewrite Hrenew in Hret.
    destruct (delta <- JobLifecycle.timedelta_days days ;;
              JobLifecycle.datetime_add base0 delta);
      simpl in Hret; [| discriminate Hret].
    injection Hret as <-. split; reflexivity.
Qed.

Lemma renew_extends_expiry_witness :
  JobLifecycle.renew 10%Z 20%Z (JobLifecycle.mk None None (Some 5%Z)) 60%Z
  = Return (JobLifecycle.mk None None (Some (20 + 60 * JobLifecycle.day)%Z))
  /\ JobLifecycle.days_until_expiry 21%Z 21%Z
       (JobLifecycle.mk None None (Some (20 + 60 * JobLifecycle.day)%Z))
     = 59%Z.
Proof.
  destruct (renew_extends_expiry 10%Z 20%Z (JobLifecycle.mk None None (Some 5%Z))
              60%Z ltac:(lia) ltac:(lia)) as (_ & H & _ & _).
  destruct (H 20%Z (or_intror (conj eq_refl eq_refl))
              ltac:(vm_compute; discriminate))
    as (Hret & _ & _ & Hlater).
  split.
  - apply Hret; vm_compute; discriminate.
  - apply (Hlater 21%Z 21%Z); [lia | unfold JobLifecycle.day; lia].
Defined.

(** * Storing recomputed scores *)

(** X19. A score recomputed by [calculate_match_score] can always be stored
    over the row it was computed from: the computation keeps the id, the
    candidate, the job and the user of the record, so on any reachable state
    of the constrained [candidate_job_matches] table the update is accepted,
    and the table has as many rows as before. *)
Theorem recomputed_score_is_storable :
  forall parents rows i db now self candidate job v self' db',
    Table.reachable (Table.candidate_job_matches parents) rows ->
    rows !! i = Some self ->
    CandidateJobMatch.calculate_match_score db now self candidate job
    = Return (v, self', db') ->
    Table.update (Table.candidate_job_matches parents) rows i self'
    = Return (<[i := self']> rows)
    /\ length (<[i := self']> rows) = length rows
    /\ <[i := self']> rows !! i = Some self'
    /\ Table.reachable (Table.candidate_job_matches parents) (<[i := self']> rows).
Proof.
  intros parents rows i db now self candidate job v self' db' Hreach Hi Hrun.
  assert (Hkeep : CandidateJobMatch.id self' = CandidateJobMatch.id self
                  /\ CandidateJobMatch.candidate_id self'
                     = CandidateJobMatch.candidate_id self
                  /\ CandidateJobMatch.job_id self' = CandidateJobMatch.job_id self
                  /\ CandidateJobMatch.user_id self'
                     = CandidateJobMatch.user_id self).
  { unfold CandidateJobMatch.calculate_match_score in Hrun.
    destruct (CandidateJobMatch.or_query candidate _ _) as [c |];
      [| injection Hrun as _ <- _; repeat split].
    destruct (CandidateJobMatch.or_query job _ _) as [j |];
      [| injection Hrun as _ <- _; repeat split].
    destruct (Candidate.embedding c) as [[| x a] |];
      destruct (Job.embedding j) as [[| y b] |];
      try (injection Hrun as _ <- _; repeat split).
    destruct (CandidateJobMatch._calculate_embedding_match _ _);
      simpl in Hrun; [| discriminate Hrun].
    injection Hrun as _ <- _. repeat split. }
  destruct Hkeep as (Hid & Hcandidate & Hjob & Huser).
  assert (Hupd : Table.update (Table.candidate_job_matches parents) rows i self'
                 = Return (<[i := self']> rows)).
  { apply (update_same_key _ rows i self self' Hreach Hi).
    - exact Hid.
    - intros key Hkey. apply list_elem_of_singleton in Hkey. subst key.
      simpl. rewrite Hcandidate, Hjob. reflexivity.
    - unfold Table.references_hold. simpl.
      rewrite Hcandidate, Hjob, Huser. reflexivity. }
  split; [exact Hupd |]. split; [apply length_insert |].
  split.
  - apply list_lookup_insert_eq. apply lookup_lt_Some in Hi. exact Hi.
  - apply (Table.reachable_update _ rows i self'); [exact Hreach | exact Hupd].
Qed.

Lemma recomputed_score_is_storable_witness :
  exists self',
    Table.update (Table.candidate_job_matches sample_parents)
      [Sample.candidate_job_match 1] 0 self'
    = Return [self']
    /\ CandidateJobMatch.match_score self' = (1 / 3)%R.
Proof.
  assert (Hreach : Table.reachable (Table.candidate_job_matches sample_parents)
                     [Sample.candidate_job_match 1]).
  { apply (Table.reachable_insert _ [] (Sample.candidate_job_match 1)).
    - apply Table.reachable_empty.
    - vm_compute. reflexivity. }
  pose proof (calculate_match_score_fallback Sample.db Sample.now
                (Sample.candidate_job_match 1) None None
                Sample.candidate1 Sample.job1 eq_refl eq_refl
                (or_introl eq_refl)) as Hrun.
  eexists. split.
  - exact (proj1 (recomputed_score_is_storable sample_parents
                    [Sample.candidate_job_match 1] 0
                    Sample.db Sample.now (Sample.candidate_job_match 1) None None
                    _ _ _ Hreach eq_refl Hrun)).
  - simpl. apply sample_skills_match_third.
Defined.

(** * Candidate names *)

Lemma char_in_count (c : ascii) (s : string) :
  CandidateName.char_in c s = true <-> (0 < count_char c s)%nat.
Proof.
  induction s as [| d s IH]; simpl; [split; [discriminate | lia] |].
  destruct (Ascii.eqb d c); simpl; [split; [lia | reflexivity] |].
  exact IH.
Qed.

Lemma char_in_contains (c : ascii) (s : string) :
  CandidateName.char_in c s = true <-> contains_char c s.
Proof.
  unfold contains_char. induction s as [| d s IH]; simpl;
    [split; [discriminate | tauto] |].
  rewrite orb_true_iff, IH, Ascii.eqb_eq. reflexivity.
Qed.

Lemma split_head_tail (sep : ascii) (s : string) :
  CandidateName.char_in sep s = true ->
  exists h x t, Py.split sep s = h :: x :: t
    /\ (h ++ String sep (String.concat (String sep EmptyString) (x :: t)))%string = s
    /\ ~ contains_char sep h.
Proof.
  intros Hin. apply char_in_count in Hin.
  pose proof (split_length sep s) as Hlen.
  pose proof (split_concat sep s) as Hcat.
  pose proof (split_items_without_separator sep s) as Hall.
  destruct (Py.split sep s) as [| h [| x t]]; simpl in Hlen; try lia.
  exists h, x, t. split; [reflexivity |].
  split; [| inversion Hall; assumption].
  exact Hcat.
Qed.

(** X20. The name parts of a candidate: when the name holds a blank, the
    first name is the text before the first blank, it holds no blank itself,
    and first name, a blank and last name put together give the name back;
    when the name holds no blank the first name is the whole name and the last
    name is empty. *)
Theorem name_parts_rebuild_name :
  forall s : string,
    (CandidateName.char_in " " s = true ->
     exists first,
       CandidateName.first_name (Some s) = Some first
       /\ ~ contains_char " " first
       /\ (first ++ " " ++ CandidateName.last_name (Some s))%string = s)
    /\ (CandidateName.char_in " " s = false ->
        CandidateName.first_name (Some s) = Some s
        /\ CandidateName.last_name (Some s) = EmptyString).
Proof.
  intros s. unfold CandidateName.first_name, CandidateName.last_name. split.
  - intros Hin. rewrite Hin.
    assert (Ht : Py.truthy_str s = true) by (destruct s; [discriminate Hin | reflexivity]).
    rewrite Ht. simpl andb. cbv iota.
    destruct (split_head_tail " " s Hin) as (h & x & t & -> & Hcat & Hfree).
    exists h. split; [reflexivity |]. split; [exact Hfree |]. exact Hcat.
  - intros Hin. rewrite Hin, andb_false_r. split; reflexivity.
Qed.

Lemma name_parts_rebuild_name_witness :
  exists first,
    CandidateName.first_name (Some "Ada King Lovelace"%string) = Some first
    /\ ~ contains_char " " first
    /\ (first ++ " " ++ CandidateName.last_name (Some "Ada King Lovelace"%string))%string
       = "Ada King Lovelace"%string.
Proof.
  apply (proj1 (name_parts_rebuild_name "Ada King Lovelace")). reflexivity.
Defined.

(** X21. [get_full_name] never returns an empty string. It returns
    "Unknown Candidate" for a missing or empty name, the name itself when the
    name is not empty and holds no blank, and the name itself when it holds a
    blank and both parts are not empty. *)
Theorem full_name_never_empty :
  forall name : option string,
    CandidateName.get_full_name name <> EmptyString
    /\ (name = None \/ name = Some EmptyString ->
        CandidateName.get_full_name name = "Unknown Candidate"%string)
    /\ (forall s, name = Some s -> s <> EmptyString ->
          CandidateName.char_in " " s = false ->
          CandidateName.get_full_name name = s)
    /\ (forall s, name = Some s ->
          CandidateName.truthy (CandidateName.first_name name) = true ->
          Py.truthy_str (CandidateName.last_name name) = true ->
          CandidateName.get_full_name name = s).
Proof.
  intros name. split; [| split; [| split]].
  - unfold CandidateName.get_full_name.
    destruct (CandidateName.first_name name) as [[| c f] |]; simpl;
      destruct (CandidateName.last_name name); simpl; discriminate.
  - intros [-> | ->]; reflexivity.
  - intros s -> Hne Hin.
    unfold CandidateName.get_full_name, CandidateName.first_name,
      CandidateName.last_name.
    rewrite Hin, andb_false_r. simpl.
    destruct s; [contradiction | reflexivity].
  - intros s -> Hf Hl.
    destruct (CandidateName.char_in " " s) eqn:Hin.
    + destruct (split_head_tail " " s Hin) as (h & x & t & Hsplit & Hcat & _).
      assert (Ht : Py.truthy_str s = true)
        by (destruct s; [discriminate Hin | reflexivity]).
      unfold CandidateName.get_full_name.
      rewrite Hf, Hl. simpl andb. cbv iota.
      unfold CandidateName.first_name, CandidateName.last_name.
      rewrite Hin, Ht, Hsplit. simpl andb. cbv iota. exact Hcat.
    + unfold CandidateName.last_name in Hl. rewrite Hin, andb_false_r in Hl.
      discriminate Hl.
Qed.

Lemma full_name_never_empty_witness :
  CandidateName.get_full_name (Some "Grace"%string) = "Grace"%string.
Proof.
  apply (proj1 (proj2 (proj2 (full_name_never_empty (Some "Grace"%string))))
           "Grace"%string eq_refl); [discriminate | reflexivity].
Defined.
